(** * The Autograd batch-execution interface of PennyLane, and the nuclear
    repulsion energy of the Hartree-Fock module.

    Shallow embedding of [pennylane/interfaces/batch/autograd.py]:
    [get_trainable_params], [_unwrap_arraybox], [convert_to_numpy],
    [UnwrapTape], [batch_execute], [_batch_execute] and the vector-Jacobian
    rule [vjp]/[grad_fn].

    Conventions. A Python exception is a [Raise] in the [result] type. Code
    that mutates a tape takes the tape and returns the tape as it is left.
    An object is identified with its value: nothing in this module mutates a
    parameter object in place, so writing a saved object back and writing
    its value back are the same. Collaborators defined elsewhere (the device,
    the gradient transform, the numeric library, the differentiation engine)
    are parameters. *)

From Stdlib Require Import ZArith Floats Uint63.
From stdpp Require Import base option list sorting strings gmap sets.

Set Default Proof Using "Type".
Set Warnings "-inexact-float".

(** ** Exceptions and fallible computations *)

(** The Python exceptions that the embedded code can raise, and the ones
    raised by its collaborators (device, numeric library). *)
Inductive exn : Type :=
| AttributeError
| IndexError
| KeyError
| ValueError
| TypeError
| DeviceError (code : nat)
| ShapeError (code : nat).

Inductive result (T : Type) : Type :=
| Ok (x : T)
| Raise (e : exn).
Arguments Ok {T} x.
Arguments Raise {T} e.

Definition rbind {T U : Type} (m : result T) (f : T → result U) : result U :=
  match m with
  | Ok x => f x
  | Raise e => Raise e
  end.

Declare Scope result_scope.
Delimit Scope result_scope with result.
Notation "'let?' x := m 'in' k" := (rbind m (λ x, k))
  (at level 10, x pattern, m at level 100, k at level 200) : result_scope.
Open Scope result_scope.

(** [[f(x) for x in xs]] for a fallible [f]: the first exception aborts. *)
Fixpoint rmapM {T U : Type} (f : T → result U) (xs : list T) : result (list U) :=
  match xs with
  | [] => Ok []
  | x :: xs' =>
      let? y := f x in
      let? ys := rmapM f xs' in
      Ok (y :: ys)
  end.

Definition of_option {T : Type} (e : exn) (o : option T) : result T :=
  match o with
  | Some x => Ok x
  | None => Raise e
  end.

(** [enumerate(xs)] *)
Definition enumerate {T : Type} (xs : list T) : list (nat * T) :=
  zip (seq 0 (length xs)) xs.

(** ** Python values *)

Section Values.

(** The plain numeric payload: what a Python float or a [numpy.ndarray]
    holds. *)
Context {A : Type}.

(** The values that reach this module: [None]; a plain numeric (Python float
    or NumPy array); a PennyLane [tensor], which is an array with a
    [requires_grad] attribute; an Autograd [ArrayBox], whose [_value] is the
    boxed value (itself possibly an [ArrayBox], one layer per nesting of
    differentiation). *)
Inductive pyval : Type :=
| PyNone
| NDArray (a : A)
| Tensor (a : A) (requires_grad : bool)
| ArrayBox (_value : pyval).

(** [isinstance(p, ArrayBox)] *)
Definition is_ArrayBox (p : pyval) : bool :=
  match p with
  | ArrayBox _ => true
  | _ => false
  end.

(** [getattr(p, "requires_grad", False)] *)
Definition getattr_requires_grad (p : pyval) : bool :=
  match p with
  | Tensor _ rg => rg
  | _ => false
  end.

(** [_unwrap_arraybox(arraybox, max_depth=None, _n=0)]. Reading [_value] off
    an object that is not an [ArrayBox] raises [AttributeError]. *)
Fixpoint _unwrap_arraybox (arraybox : pyval) (max_depth : option nat) (_n : nat)
  : result pyval :=
  if match max_depth with
     | Some m => Nat.eqb _n m
     | None => false
     end
  then Ok arraybox
  else
    match arraybox with
    | ArrayBox val =>
        if is_ArrayBox val
        then _unwrap_arraybox val max_depth (S _n)
        else Ok val
    | _ => Raise AttributeError
    end.

(** One element of [convert_to_numpy]: [t.numpy()] on a tensor, the
    innermost value of an [ArrayBox], the value itself otherwise. *)
Definition convert_one (t : pyval) : result pyval :=
  match t with
  | Tensor a _ => Ok (NDArray a)
  | ArrayBox _ => _unwrap_arraybox t None 0
  | _ => Ok t
  end.

(** [convert_to_numpy(tensors)] *)
Definition convert_to_numpy (tensors : list pyval) : result (list pyval) :=
  rmapM convert_one tensors.

End Values.
Arguments pyval A : clear implicits.

(** ** Tapes *)

Section Tapes.

Context {A : Type}.

(** An operation of a tape; [data] is its list of parameters. *)
Record Operator : Type := { data : list (pyval A) }.

(** An entry of [tape._par_info]: the owning operation (its position among
    the tape's operations) and the parameter's position in [op.data]. *)
Record ParInfo : Type := { op : nat; p_idx : nat }.

(** Modelled from the spec: the [QuantumTape] class is not part of the
    sources at hand. A tape is an ordered sequence of operations carrying
    parameters; [_par_info] maps the flat parameter index [0, 1, ...] to the
    owning operation and position; [trainable_params] is a mutable set of
    flat parameter indices. *)
Record QuantumTape : Type := {
  operations : list Operator;
  _par_info : list ParInfo;
  trainable_params : gset nat
}.

(** [op.data[op_idx]] for the operation and position of a [_par_info] entry. *)
Definition read_loc (ops : list Operator) (pi : ParInfo) : option (pyval A) :=
  o ← ops !! op pi; data o !! p_idx pi.

(** [op.data[op_idx] = p]; [None] where Python raises [IndexError]. *)
Definition write_loc (ops : list Operator) (pi : ParInfo) (p : pyval A)
  : option (list Operator) :=
  o ← ops !! op pi;
  if decide (p_idx pi < length (data o))
  then Some (<[op pi := {| data := <[p_idx pi := p]> (data o) |}]> ops)
  else None.

Definition read_par (tape : QuantumTape) (pi : ParInfo) : result (pyval A) :=
  of_option IndexError (read_loc (operations tape) pi).

(** The second loop of [get_trainable_params]. *)
Definition classify (params : list (pyval A)) : gset nat :=
  foldl (λ (trainable_params : gset nat) '(idx, p),
           if getattr_requires_grad p || is_ArrayBox p
           then trainable_params ∪ {[idx]}
           else trainable_params)
        ∅ (enumerate params).

(** [get_trainable_params(tape)] *)
Definition get_trainable_params (tape : QuantumTape)
  : result (gset nat * list (pyval A)) :=
  let? params := rmapM (read_par tape) (_par_info tape) in
  Ok (classify params, params).

(** Modelled from the spec: [QuantumTape.get_parameters(trainable_only)]
    is a method of the absent tape class. It lists the parameters at the
    trainable indices, in ascending order of the indices (the order in
    which the set of these small integers is iterated) or, with
    [trainable_only=False], at every index. *)
Definition get_parameters (trainable_only : bool) (tape : QuantumTape)
  : result (list (pyval A)) :=
  if trainable_only
  then rmapM (λ idx, let? pi := of_option KeyError (_par_info tape !! idx) in
                     read_par tape pi)
             (merge_sort (≤) (elements (trainable_params tape)))
  else rmapM (read_par tape) (_par_info tape).

(** The writes of [set_parameters], one per parameter, in order; the tape
    keeps the writes done before an exception. *)
Fixpoint write_all (ws : list (ParInfo * pyval A)) (ops : list Operator)
  : list Operator * result unit :=
  match ws with
  | [] => (ops, Ok ())
  | (pi, p) :: ws' =>
      match write_loc ops pi p with
      | Some ops' => write_all ws' ops'
      | None => (ops, Raise IndexError)
      end
  end.

(** Modelled from the spec: [QuantumTape.set_parameters(params,
    trainable_only=False)] is a method of the absent tape class. It
    overwrites every parameter position with the corresponding value, and
    fails on a mismatched parameter count. *)
Definition set_parameters (params : list (pyval A)) (tape : QuantumTape)
  : QuantumTape * result unit :=
  if decide (length params = length (_par_info tape))
  then
    let '(ops, r) := write_all (zip (_par_info tape) params) (operations tape) in
    ({| operations := ops; _par_info := _par_info tape;
        trainable_params := trainable_params tape |}, r)
  else (tape, Raise ValueError).

(** *** The context manager [UnwrapTape] *)

Record UnwrapTape : Type := {
  tape : QuantumTape;
  _original_params : option (list (pyval A));
  _unwrapped_params : option (list (pyval A))
}.

(** [UnwrapTape.__init__(self, tape)] *)
Definition UnwrapTape__init__ (tape : QuantumTape) : UnwrapTape :=
  {| tape := tape; _original_params := None; _unwrapped_params := None |}.

(** [UnwrapTape.__enter__(self)]: the new state of the manager (and of its
    tape) and the returned tape, or the exception. *)
Definition UnwrapTape__enter__ (self : UnwrapTape)
  : UnwrapTape * result QuantumTape :=
  match get_trainable_params (tape self) with
  | Raise e => (self, Raise e)
  | Ok (trainable, original) =>
      let tape1 := {| operations := operations (tape self);
                      _par_info := _par_info (tape self);
                      trainable_params := trainable |} in
      let self1 := {| tape := tape1; _original_params := Some original;
                      _unwrapped_params := _unwrapped_params self |} in
      match convert_to_numpy original with
      | Raise e => (self1, Raise e)
      | Ok unwrapped =>
          let '(tape2, r) := set_parameters unwrapped tape1 in
          let self2 := {| tape := tape2; _original_params := Some original;
                          _unwrapped_params := Some unwrapped |} in
          (self2, let? _ := r in Ok tape2)
      end
  end.

(** [UnwrapTape.__exit__(self, exception_type, exception_value, traceback)].
    It returns [None]: a pending exception is not suppressed. *)
Definition UnwrapTape__exit__ (self : UnwrapTape) : UnwrapTape * result unit :=
  match _original_params self with
  | None => (self, Raise TypeError)
  | Some original =>
      let '(tape', r) := set_parameters original (tape self) in
      ({| tape := tape'; _original_params := _original_params self;
          _unwrapped_params := _unwrapped_params self |}, r)
  end.

(** [with UnwrapTape(t) as unwrapped_tape: body(unwrapped_tape)]. The block
    reads the tape. The statement yields the tape as it is left, and the
    value of the block or the exception that leaves the statement: an
    exception of [__enter__] skips block and [__exit__]; an exception of the
    block runs [__exit__] and propagates; an exception of [__exit__]
    replaces the outcome of the block. *)
Definition with_UnwrapTape {R : Type} (t : QuantumTape)
    (body : QuantumTape → result R) : QuantumTape * result R :=
  let '(self, entered) := UnwrapTape__enter__ (UnwrapTape__init__ t) in
  match entered with
  | Raise e => (tape self, Raise e)
  | Ok unwrapped_tape =>
      let out := body unwrapped_tape in
      let '(self', exited) := UnwrapTape__exit__ self in
      (tape self', let? _ := exited in out)
  end.

(** The same statement for a block that also writes to the tape: the block
    returns the tape as it leaves it, and [__exit__] runs on that tape
    ([self.tape] is the object that the block was handed). *)
Definition with_UnwrapTape_mutating {R : Type} (t : QuantumTape)
    (body : QuantumTape → QuantumTape * result R) : QuantumTape * result R :=
  let '(self, entered) := UnwrapTape__enter__ (UnwrapTape__init__ t) in
  match entered with
  | Raise e => (tape self, Raise e)
  | Ok unwrapped_tape =>
      let '(tape_after, out) := body unwrapped_tape in
      let self_after := {| tape := tape_after;
                           _original_params := _original_params self;
                           _unwrapped_params := _unwrapped_params self |} in
      let '(self', exited) := UnwrapTape__exit__ self_after in
      (tape self', let? _ := exited in out)
  end.

End Tapes.
Arguments Operator A : clear implicits.
Arguments QuantumTape A : clear implicits.
Arguments UnwrapTape A : clear implicits.

(** ** Batch execution *)

Section Batch.

Context {A : Type}.

(** An entry of the parameter-shift cache; the module passes the cache
    along and never looks into it. *)
Context {CacheEntry : Type}.

(** [device.batch_execute(tapes)]: a deterministic device is a function of
    the tapes it is handed; it returns one result per tape or raises. *)
Definition Device : Type := list (QuantumTape A) → result (list (pyval A)).

(** The post-processing function returned by a gradient transform, and the
    gradient transform [gradient_fn(tape, idx)] itself, both taken to
    return. *)
Definition Postprocess : Type := list (pyval A) → pyval A.
Definition GradientFn : Type :=
  QuantumTape A → nat → list (QuantumTape A) * Postprocess.

(** [qml.transforms.gradients.qubit_parameter_shift.expval_grad], the
    default gradient transform (defined outside this module). *)
Context (expval_grad : GradientFn).

(** The keyword arguments of a call of the primitive [_batch_execute]. The
    decorator [autograd.extend.primitive] and the registration
    [autograd.extend.defvjp(_batch_execute, vjp, argnums=[0])] make the
    engine hand them, unchanged, to [vjp] on the backward pass. *)
Record kwargs : Type := {
  kw_tapes : list (QuantumTape A);
  kw_gradient_fn : GradientFn;
  kw_cache : list CacheEntry;
  kw__n : nat
}.

(** The [with contextlib.ExitStack() as stack] block of [_batch_execute]:
    [stack.enter_context(UnwrapTape(t))] for each tape in turn, the device
    call on the tapes so returned, then the [__exit__]s in reverse order.
    [unwrapped_tapes] are the tapes entered so far; the tapes of a batch
    are distinct objects, each owned by one scope. An [__enter__] that
    raises leaves the later tapes untouched and unwinds the earlier ones; an
    [__exit__] that raises replaces the pending outcome. The result is the
    state the tapes are left in, paired with the outcome. *)
Fixpoint exit_stack {R : Type} (tapes unwrapped_tapes : list (QuantumTape A))
    (block : list (QuantumTape A) → result R)
  : list (QuantumTape A) * result R :=
  match tapes with
  | [] => ([], block unwrapped_tapes)
  | t :: ts =>
      let '(self, entered) := UnwrapTape__enter__ (UnwrapTape__init__ t) in
      match entered with
      | Raise e => (tape self :: ts, Raise e)
      | Ok u =>
          let '(ts', out) := exit_stack ts (unwrapped_tapes ++ [u]) block in
          let '(self', exited) := UnwrapTape__exit__ self in
          (tape self' :: ts', let? _ := exited in out)
      end
  end.

(** [layers] layers of [ArrayBox] around a value. *)
Fixpoint new_box (layers : nat) (v : pyval A) : pyval A :=
  match layers with
  | 0 => v
  | S layers' => ArrayBox (new_box layers' v)
  end.

(** The decorator [autograd.extend.primitive], which belongs to the
    Autograd library. A call of the decorated function whose [parameters]
    hold no [ArrayBox] runs the function as it is. When a parameter is an
    [ArrayBox], the engine runs the function and boxes its answer, one layer
    for each trace in which a parameter is boxed: what is returned is a
    sequence box, whose items are the [ArrayBox]es of the items of the
    answer. [outer_traces parameters] is the number of those traces beyond
    the first (none under a first-order derivative). *)
Context (outer_traces : list (list (pyval A)) → nat).

Definition primitive_answer (parameters : list (list (pyval A)))
    (ans : list (pyval A)) : list (pyval A) :=
  if existsb (existsb is_ArrayBox) parameters
  then map (new_box (S (outer_traces parameters))) ans
  else ans.

(** [_batch_execute(parameters, tapes, device, gradient_fn, cache, _n)],
    the forward pass, under its decorator [@autograd.extend.primitive]. *)
Definition _batch_execute (parameters : list (list (pyval A)))
    (tapes : list (QuantumTape A)) (device : Device)
    (gradient_fn : GradientFn) (cache : list CacheEntry) (_n : nat)
  : list (QuantumTape A) * result (list (pyval A)) :=
  let '(tapes', res) := exit_stack tapes [] device in
  (tapes', let? ans := res in Ok (primitive_answer parameters ans)).

(** The keyword arguments that [batch_execute] passes on; an omitted
    argument ([None] here) takes the default of the signature
    [gradient_fn=None, cache=[], _n=1]. *)
Definition batch_execute_kwargs (tapes : list (QuantumTape A))
    (gradient_fn : option GradientFn) (cache : option (list CacheEntry))
    (_n : option nat) : kwargs :=
  {| kw_tapes := tapes;
     kw_gradient_fn := match gradient_fn with
                       | None => expval_grad
                       | Some g => g
                       end;
     kw_cache := default [] cache;
     kw__n := default 1 _n |}.

(** [batch_execute(tapes, device, gradient_fn=None, cache=[], _n=1)] *)
Definition batch_execute (tapes : list (QuantumTape A)) (device : Device)
    (gradient_fn : option GradientFn) (cache : option (list CacheEntry))
    (_n : option nat)
  : list (QuantumTape A) * result (list (pyval A)) :=
  let kw := batch_execute_kwargs tapes gradient_fn cache _n in
  match rmapM (get_parameters true) tapes with
  | Raise e => (tapes, Raise e)
  | Ok parameters =>
      _batch_execute parameters (kw_tapes kw) device (kw_gradient_fn kw)
                     (kw_cache kw) (kw__n kw)
  end.

(** ** The vector-Jacobian product *)

(** The calls that [grad_fn] makes to its collaborators, in order: to the
    gradient transform, to [batch_execute] and to the post-processing
    functions. The log is kept beside the computation so that properties
    on which calls are made, and with which arguments, can be stated. *)
Inductive event : Type :=
| GradientFnCall (t : QuantumTape A) (idx : nat)
| BatchExecuteCall (tapes : list (QuantumTape A)) (cache : list CacheEntry)
                   (_n : nat)
| PostprocessCall (fn : Postprocess) (res : list (pyval A)).

(** A computation that logs its calls and may raise. *)
Definition traced (T : Type) : Type := list event * result T.

Definition tret {T : Type} (x : T) : traced T := ([], Ok x).

Definition tbind {T U : Type} (m : traced T) (f : T → traced U) : traced U :=
  match m with
  | (log, Ok x) => let '(log', r) := f x in (log ++ log', r)
  | (log, Raise e) => (log, Raise e)
  end.

Definition emit (e : event) : traced unit := ([e], Ok ()).

Definition lift {T : Type} (r : result T) : traced T := ([], r).

Notation "'let!' x := m 'in' k" := (tbind m (λ x, k))
  (at level 10, x pattern, m at level 100, k at level 200).

(** [for x in xs: acc = f(acc, x)] *)
Fixpoint tfoldl {S T : Type} (f : S → T → traced S) (acc : S) (xs : list T)
  : traced S :=
  match xs with
  | [] => tret acc
  | x :: xs' => let! acc' := f acc x in tfoldl f acc' xs'
  end.

(** The numeric library, on values that may be boxed: [np.reshape(a, shape)],
    [np.stack(arrays)], [np.transpose(a)] and
    [np.tensordot(a, b, axes=[[0], [0]])]. *)
Context (np_reshape : pyval A → list Z → result (pyval A)).
Context (np_stack : list (pyval A) → result (pyval A)).
Context (np_transpose : pyval A → result (pyval A)).
Context (np_tensordot : pyval A → pyval A → result (pyval A)).

(** [batch_execute] as [grad_fn] calls it, under the engine: when the
    parameters of the tapes are boxes the primitive's answer comes back
    boxed. *)
Context (traced_batch_execute :
  list (QuantumTape A) → list CacheEntry → nat → result (list (pyval A))).

(** The lists built by the first loop of [grad_fn]. *)
Record generated : Type := {
  reshape_info : list nat;
  gradient_tapes : list (QuantumTape A);
  processing_fns : list (list Postprocess)
}.

(** [xss[-1].append(x)] *)
Definition append_last {T : Type} (xss : list (list T)) (x : T)
  : list (list T) :=
  alter (λ xs, xs ++ [x]) (pred (length xss)) xss.

Section Vjp.

(** The arguments of [vjp(ans, parameters, tapes, device, gradient_fn, cache, _n)]
    that [grad_fn] uses. *)
Context (tapes : list (QuantumTape A)).
Context (gradient_fn : GradientFn).
Context (cache : list CacheEntry).
Context (_n : nat).

(** The body of the loop over [enumerate(t.trainable_params)]. *)
Definition generate_param (t : QuantumTape A) (st : generated)
    (idx_elem : nat * nat) : traced generated :=
  let '(idx, _) := idx_elem in
  let! _ := emit (GradientFnCall t idx) in
  let '(g_tapes, fn) := gradient_fn t idx in
  tret {| reshape_info := reshape_info st ++ [length g_tapes];
          gradient_tapes := gradient_tapes st ++ g_tapes;
          processing_fns := append_last (processing_fns st) fn |}.

(** The body of the loop over [tapes]. *)
Definition generate_tape (st : generated) (t : QuantumTape A)
  : traced generated :=
  let st' := {| reshape_info := reshape_info st;
                gradient_tapes := gradient_tapes st;
                processing_fns := processing_fns st ++ [[]] |} in
  tfoldl (generate_param t) st' (enumerate (elements (trainable_params t))).

(** The first loop of [grad_fn]. *)
Definition generate : traced generated :=
  tfoldl generate_tape
         {| reshape_info := []; gradient_tapes := []; processing_fns := [] |}
         tapes.

(** The body of the loop over [zip(processing_fns[t], reshape_info)]; the
    accumulator is [(jac, start)]. *)
Definition column (results : list (pyval A)) (acc : list (pyval A) * nat)
    (fn_len : Postprocess * nat) : traced (list (pyval A) * nat) :=
  let '(jac, start) := acc in
  let '(fn, res_len) := fn_len in
  let res := take res_len (drop start results) in
  let! _ := emit (PostprocessCall fn res) in
  tret (jac ++ [fn res], start + res_len).

(** The body of the loop over [zip(range(len(tapes)), dy)]; the accumulator
    is [(vjp, start)]. *)
Definition row (g : generated) (results : list (pyval A))
    (acc : list (pyval A) * nat) (t_d : nat * pyval A)
  : traced (list (pyval A) * nat) :=
  let '(vjp, start) := acc in
  let '(t, d) := t_d in
  let! tape_t := lift (of_option IndexError (tapes !! t)) in
  let num_params := size (trainable_params tape_t) in
  if Nat.eqb num_params 0
  then tret (vjp ++ [PyNone], start)
  else
    let! fns := lift (of_option IndexError (processing_fns g !! t)) in
    let! (jac, start') :=
      tfoldl (column results) ([], start) (zip fns (reshape_info g)) in
    let! dy_row := lift (np_reshape d [(-1)%Z]) in
    let! jac := lift (np_stack jac) in
    let! jac := lift (np_transpose jac) in
    let! jac := lift (np_reshape jac [(-1)%Z; Z.of_nat num_params]) in
    let! v := lift (np_tensordot dy_row jac) in
    tret (vjp ++ [v], start').

(** [grad_fn] up to its last line: the list [vjp]. *)
Definition grad_fn_vjp (dy : list (pyval A)) : traced (list (pyval A)) :=
  let! g := generate in
  let! _ := emit (BatchExecuteCall (gradient_tapes g) cache (_n + 1)) in
  let! results := lift (traced_batch_execute (gradient_tapes g) cache (_n + 1)) in
  let! (vjp, _) :=
    tfoldl (row g results) ([], 0) (zip (seq 0 (length tapes)) dy) in
  tret vjp.

(** The last line of [grad_fn]:
    [[_unwrap_arraybox(v, max_depth=_n) for v in vjp]]. *)
Definition grad_fn_return (vjp : list (pyval A)) : result (list (pyval A)) :=
  rmapM (λ v, _unwrap_arraybox v (Some _n) 0) vjp.

(** [grad_fn(dy)] *)
Definition grad_fn (dy : list (pyval A)) : traced (list (pyval A)) :=
  let! vjp := grad_fn_vjp dy in
  lift (grad_fn_return vjp).

End Vjp.

(** [vjp(ans, parameters, tapes, device, gradient_fn, cache, _n)] returns
    [grad_fn]. *)
Definition vjp (ans : list (pyval A)) (parameters : list (list (pyval A)))
    (tapes : list (QuantumTape A)) (device : Device)
    (gradient_fn : GradientFn) (cache : list CacheEntry) (_n : nat)
  : list (pyval A) → traced (list (pyval A)) :=
  grad_fn tapes gradient_fn cache _n.

(** [autograd.extend.defvjp(_batch_execute, vjp, argnums=[0])]: on the
    backward pass of a call of the primitive with keyword arguments [kw],
    parameters [parameters] and answer [ans], the engine calls
    [vjp(ans, parameters, **kw)] and applies the function it returns to the
    upstream gradient. *)
Definition backward_pass (kw : kwargs) (device : Device)
    (ans : list (pyval A)) (parameters : list (list (pyval A)))
  : list (pyval A) → traced (list (pyval A)) :=
  vjp ans parameters (kw_tapes kw) device (kw_gradient_fn kw) (kw_cache kw)
      (kw__n kw).

End Batch.

Arguments event A CacheEntry : clear implicits.
Arguments generated A : clear implicits.
Arguments kwargs A CacheEntry : clear implicits.

(** ** Vocabulary of the statements *)

#[global] Instance ParInfo_eq_dec : EqDecision ParInfo.
Proof. solve_decision. Defined.

Section Vocabulary.

Context {A CacheEntry : Type}.

(** The number of [ArrayBox] layers around a value. *)
Fixpoint box_depth (v : pyval A) : nat :=
  match v with
  | ArrayBox v' => S (box_depth v')
  | _ => 0
  end.

(** The value under [k] layers of [ArrayBox] (fewer when there are fewer). *)
Fixpoint strip_layers (k : nat) (v : pyval A) : pyval A :=
  match k, v with
  | S k', ArrayBox v' => strip_layers k' v'
  | _, _ => v
  end.

(** The tape that [UnwrapTape(t).__enter__()] returns: what the device is
    handed for [t]. *)
Definition unwrapped (t : QuantumTape A) : result (QuantumTape A) :=
  (UnwrapTape__enter__ (UnwrapTape__init__ t)).2.

(** The tape as a scoped unwrapping leaves it: the operations and their
    parameters of before, and the trainable set that [get_trainable_params]
    computes (the tape itself when that computation raises). *)
Definition after_scope (t : QuantumTape A) : QuantumTape A :=
  match get_trainable_params t with
  | Ok (trainable, _) =>
      {| operations := operations t; _par_info := _par_info t;
         trainable_params := trainable |}
  | Raise _ => t
  end.

(** The lengths of the [data] lists of the operations: what no write
    changes. *)
Definition shape (ops : list (Operator A)) : list nat :=
  map (λ o, length (data o)) ops.

(** Tapes that hold the same operations, parameter values included, and the
    same parameter layout; their [trainable_params] are free. *)
Definition same_parameters (t1 t2 : QuantumTape A) : Prop :=
  operations t1 = operations t2 ∧ _par_info t1 = _par_info t2.

(** Tapes that hold identical parameter values: they unwrap to tapes with
    the same operations, plain parameter values and parameter layout. The
    parameter objects, their [requires_grad] flags and the trainable sets
    of the tapes may differ. *)
Definition same_values (t1 t2 : QuantumTape A) : Prop :=
  match unwrapped t1, unwrapped t2 with
  | Ok u1, Ok u2 => same_parameters u1 u2
  | _, _ => False
  end.

(** A device whose answer is a function of the operations and parameter
    values of the tapes it is handed, not of their trainable sets. *)
Definition reads_parameters_only (device : Device (A:=A)) : Prop :=
  ∀ us1 us2, Forall2 same_parameters us1 us2 → device us1 = device us2.

(** Whether a parameter that the primitive is handed is an [ArrayBox]. *)
Definition has_box (parameters : list (list (pyval A))) : bool :=
  existsb (existsb is_ArrayBox) parameters.

(** The invariant of the data model: every [_par_info] entry designates a
    parameter of an operation of the tape, and [trainable_params] lies
    within the parameter indices. *)
Definition tape_wf (t : QuantumTape A) : Prop :=
  Forall (λ pi, is_Some (read_loc (operations t) pi)) (_par_info t) ∧
  ∀ idx, idx ∈ trainable_params t → idx < length (_par_info t).

(** Projections of a log. *)
Definition gradient_calls (log : list (event A CacheEntry))
  : list (QuantumTape A * nat) :=
  omap (λ e, match e with GradientFnCall t idx => Some (t, idx) | _ => None end)
       log.

Definition batch_execute_depths (log : list (event A CacheEntry)) : list nat :=
  omap (λ e, match e with BatchExecuteCall _ _ n => Some n | _ => None end) log.

Definition postprocess_slices (log : list (event A CacheEntry))
  : list (list (pyval A)) :=
  omap (λ e, match e with PostprocessCall _ res => Some res | _ => None end) log.

Definition is_postprocess (e : event A CacheEntry) : Prop :=
  match e with
  | PostprocessCall _ _ => True
  | _ => False
  end.

(** The calls of [gradient_fn] when the second argument is the element of
    the trainable set, in the iteration order of the set. *)
Definition calls_by_set_element (tapes : list (QuantumTape A))
  : list (QuantumTape A * nat) :=
  flat_map (λ t, map (λ p, (t, p)) (elements (trainable_params t))) tapes.

(** The calls of [gradient_fn] when the second argument is the position in
    the iteration over the trainable set. *)
Definition calls_by_position (tapes : list (QuantumTape A))
  : list (QuantumTape A * nat) :=
  flat_map (λ t, map (λ idx, (t, idx)) (seq 0 (size (trainable_params t))))
           tapes.

(** Cutting a flat list into consecutive pieces of the given lengths. *)
Fixpoint consecutive_slices {T : Type} (lens : list nat) (xs : list T)
  : list (list T) :=
  match lens with
  | [] => []
  | n :: lens' => take n xs :: consecutive_slices lens' (drop n xs)
  end.

(** Whether a value counts as trainable: the test of
    [get_trainable_params]. *)
Definition is_trainable (p : pyval A) : bool :=
  getattr_requires_grad p || is_ArrayBox p.

(** The innermost value of a (possibly boxed) value. *)
Definition innermost (v : pyval A) : pyval A := strip_layers (box_depth v) v.

(** The number of trainable parameters of each tape of a batch. *)
Definition trainable_counts (tapes : list (QuantumTape A)) : list nat :=
  map (λ t, size (trainable_params t)) tapes.

(** The positions [0, ..., k - 1] in the iteration over the trainable set
    of a tape. *)
Definition positions (t : QuantumTape A) : list nat :=
  seq 0 (size (trainable_params t)).

(** The lists that the first loop of [grad_fn] builds, written out: tape by
    tape and position by position, the number of shifted tapes, the shifted
    tapes themselves, and, grouped by tape, the post-processing functions. *)
Definition generated_lists (gradient_fn : GradientFn (A:=A))
    (tapes : list (QuantumTape A)) : generated A :=
  {| reshape_info :=
       flat_map (λ t, map (λ idx, length (gradient_fn t idx).1) (positions t))
                tapes;
     gradient_tapes :=
       flat_map (λ t, flat_map (λ idx, (gradient_fn t idx).1) (positions t))
                tapes;
     processing_fns :=
       map (λ t, map (λ idx, (gradient_fn t idx).2) (positions t)) tapes |}.

(** The slice lengths that the row of tape number [t] takes off
    [reshape_info]: its leading entries, one per post-processing function of
    the tape; none for a tape without trainable parameter. *)
Definition row_counts (tapes : list (QuantumTape A)) (g : generated A)
    (t : nat) : list nat :=
  match tapes !! t with
  | Some tape_t =>
      if Nat.eqb (size (trainable_params tape_t)) 0 then []
      else match processing_fns g !! t with
           | Some fns => take (length fns) (reshape_info g)
           | None => []
           end
  | None => []
  end.

(** "Exactly [n] layers are stripped" between a value and what is returned
    for it. *)
Definition strips_exactly (n : nat) (v w : pyval A) : Prop :=
  box_depth v = n + box_depth w.

End Vocabulary.

(** ** Nuclear repulsion energy *)

Module HartreeFock.

Open Scope float_scope.

(** Modelled from the spec: [pennylane/hf/hartree_fock.py] and
    [pennylane/hf/molecule.py] are not part of the sources at hand; only
    their tests are. [nuclear_energy(charges, coordinates)] is the sum over
    atom pairs of [Z_i * Z_j / distance_ij], in double precision. *)

(** The nuclear charge of an element symbol (first row and a half of the
    periodic table). *)
Definition atomic_number (symbol : string) : option Z :=
  if decide (symbol = "H"%string) then Some 1%Z
  else if decide (symbol = "He"%string) then Some 2%Z
  else if decide (symbol = "Li"%string) then Some 3%Z
  else if decide (symbol = "Be"%string) then Some 4%Z
  else if decide (symbol = "B"%string) then Some 5%Z
  else if decide (symbol = "C"%string) then Some 6%Z
  else if decide (symbol = "N"%string) then Some 7%Z
  else if decide (symbol = "O"%string) then Some 8%Z
  else if decide (symbol = "F"%string) then Some 9%Z
  else if decide (symbol = "Ne"%string) then Some 10%Z
  else None.

(** [Molecule(symbols, geometry).nuclear_charges] *)
Definition nuclear_charges (symbols : list string) : option (list Z) :=
  mapM atomic_number symbols.

(** The float of a (small) integer. *)
Definition float_of_Z (z : Z) : float :=
  match z with
  | Z0 => 0
  | Zpos _ => PrimFloat.of_uint63 (Uint63.of_Z z)
  | Zneg _ => - PrimFloat.of_uint63 (Uint63.of_Z (Z.opp z))
  end.

(** The Euclidean distance between two points. *)
Definition distance (r1 r2 : list float) : float :=
  PrimFloat.sqrt
    (foldl (λ s x, s + x * x) 0 (zip_with (λ a b, a - b) r1 r2)).

(** The repulsion of each atom with the atoms after it, accumulated onto
    [e]. *)
Fixpoint nuclear_from (e : float) (atoms : list (Z * list float)) : float :=
  match atoms with
  | [] => e
  | (z1, r1) :: rest =>
      nuclear_from
        (foldl (λ e '(z2, r2), e + float_of_Z (z1 * z2) / distance r1 r2)
               e rest)
        rest
  end.

(** [nuclear_energy(charges, coordinates)(coordinates)] *)
Definition nuclear_energy (charges : list Z) (coordinates : list (list float))
  : float :=
  nuclear_from 0 (zip charges coordinates).

(** The sum over atom pairs, as the spec words it: the pairs of an atom
    [i] with an atom [j] after it, for [i] in order and [j] in order; the
    term of a pair is [Z_i * Z_j / distance_ij]; the terms are added from
    zero in that order. *)
Definition atom_pairs (atoms : list (Z * list float))
  : list ((Z * list float) * (Z * list float)) :=
  concat (imap (λ i a, map (pair a) (drop (S i) atoms)) atoms).

Definition pair_repulsion (pair : (Z * list float) * (Z * list float))
  : float :=
  float_of_Z (pair.1.1 * pair.2.1) / distance pair.1.2 pair.2.2.

Definition pair_sum (atoms : list (Z * list float)) : float :=
  foldl (λ e pair, e + pair_repulsion pair) 0 (atom_pairs atoms).

(** [np.allclose(a, b)] on two numbers, with the default tolerances
    [rtol=1e-05] and [atol=1e-08]. *)
Definition allclose (a b : float) : bool :=
  PrimFloat.leb (PrimFloat.abs (a - b)) (1e-8 + 1e-5 * PrimFloat.abs b).

(** The molecules of [test_nuclear_energy], and the reference value of the
    third. *)
Definition H2_symbols : list string := ["H"; "H"]%string.
Definition H2_geometry : list (list float) := [[0; 0; 0]; [0; 0; 1]].
Definition HF_symbols : list string := ["H"; "F"]%string.
Definition HF_geometry : list (list float) := [[0; 0; 0]; [0; 0; 2]].
Definition H2O_symbols : list string := ["H"; "O"; "H"]%string.
Definition H2O_geometry : list (list float) :=
  [[0; 1.2; 0]; [0; 0; 0]; [1; -0.2; 0]].
Definition H2O_e_ref : float := 15.09255.

End HartreeFock.

(** ** Concrete tapes and collaborators *)

Module Examples.

(** *** The tape of the docstrings *)

(** [RX(tensor(0.1, requires_grad=True)); RY(0.2); RZ(tensor(0.3,
    requires_grad=True))]. *)
Definition doc_params : list (pyval float) :=
  [Tensor 0.1%float true; NDArray 0.2%float; Tensor 0.3%float true].

(** The tape as constructed: one operation per parameter and, as for any
    freshly recorded tape, every parameter index in [trainable_params]. *)
Definition doc_tape : QuantumTape float :=
  {| operations := map (λ p, {| data := [p] |}) doc_params;
     _par_info := [ {| op := 0; p_idx := 0 |};
                    {| op := 1; p_idx := 0 |};
                    {| op := 2; p_idx := 0 |} ];
     trainable_params := {[0; 1; 2]} |}.

(** *** A numeric library for tapes with one scalar output

    An array is the flat list of its entries (integers, so that the
    arithmetic is exact); a scalar is a one-entry array. An operation on
    boxed values computes on the boxed arrays and boxes the outcome as deep
    as its deepest argument. *)

Definition arr : Type := list Z.

Fixpoint array_of (v : pyval arr) : option arr :=
  match v with
  | PyNone => None
  | NDArray a => Some a
  | Tensor a _ => Some a
  | ArrayBox v' => array_of v'
  end.

Fixpoint rebox (k : nat) (v : pyval arr) : pyval arr :=
  match k with
  | 0 => v
  | S k' => ArrayBox (rebox k' v)
  end.

Definition np_reshape (v : pyval arr) (shape : list Z) : result (pyval arr) :=
  let? a := of_option TypeError (array_of v) in
  Ok (rebox (box_depth v) (NDArray a)).

Definition np_transpose (v : pyval arr) : result (pyval arr) :=
  let? a := of_option TypeError (array_of v) in
  Ok (rebox (box_depth v) (NDArray a)).

Definition np_stack (vs : list (pyval arr)) : result (pyval arr) :=
  let? arrays := rmapM (λ v, of_option TypeError (array_of v)) vs in
  Ok (rebox (max_list (map box_depth vs)) (NDArray (concat arrays))).

(** The contraction of a one-entry row with a [(1, k)] Jacobian. *)
Definition np_tensordot (a b : pyval arr) : result (pyval arr) :=
  match array_of a, array_of b with
  | Some [x], Some ys =>
      Ok (rebox (max (box_depth a) (box_depth b)) (NDArray (map (Z.mul x) ys)))
  | Some _, Some _ => Raise (ShapeError 0)
  | _, _ => Raise TypeError
  end.

(** *** A batch with unequal numbers of shifted tapes *)

(** A tape with one operation and one trainable parameter. *)
Definition tape_one : QuantumTape arr :=
  {| operations := [ {| data := [ArrayBox (Tensor [1%Z] true)] |} ];
     _par_info := [ {| op := 0; p_idx := 0 |} ];
     trainable_params := {[0]} |}.

(** A tape with two operations, of which the first parameter is trainable. *)
Definition tape_two : QuantumTape arr :=
  {| operations := [ {| data := [ArrayBox (Tensor [2%Z] true)] |};
                     {| data := [NDArray [3%Z]] |} ];
     _par_info := [ {| op := 0; p_idx := 0 |}; {| op := 1; p_idx := 0 |} ];
     trainable_params := {[0]} |}.

(** A tape with three parameters, of which the first and the last are
    trainable. *)
Definition tape_three : QuantumTape arr :=
  {| operations := [ {| data := [ArrayBox (Tensor [1%Z] true)] |};
                     {| data := [NDArray [2%Z]] |};
                     {| data := [ArrayBox (Tensor [3%Z] true)] |} ];
     _par_info := [ {| op := 0; p_idx := 0 |}; {| op := 1; p_idx := 0 |};
                    {| op := 2; p_idx := 0 |} ];
     trainable_params := {[0; 2]} |}.

(** [tape_one] with an empty trainable set. *)
Definition tape_one_frozen : QuantumTape arr :=
  {| operations := operations tape_one; _par_info := _par_info tape_one;
     trainable_params := ∅ |}.

(** A tape whose parameter is a tensor, and a tape with the same value as
    a plain number. *)
Definition tape_tensor : QuantumTape arr :=
  {| operations := [ {| data := [Tensor [1%Z] true] |} ];
     _par_info := [ {| op := 0; p_idx := 0 |} ];
     trainable_params := {[0]} |}.

Definition tape_plain : QuantumTape arr :=
  {| operations := [ {| data := [NDArray [1%Z]] |} ];
     _par_info := [ {| op := 0; p_idx := 0 |} ];
     trainable_params := ∅ |}.

(** First-order differentiation: a boxed parameter is boxed in one trace. *)
Definition first_order (parameters : list (list (pyval arr))) : nat := 0.

(** A tape without trainable parameter. *)
Definition tape_none : QuantumTape arr :=
  {| operations := [ {| data := [NDArray [4%Z]] |} ];
     _par_info := [ {| op := 0; p_idx := 0 |} ];
     trainable_params := ∅ |}.

(** The post-processing: the sum of the results of the shifted tapes. *)
Definition sum_results : Postprocess (A:=arr) :=
  λ res, rebox (max_list (map box_depth res))
               (NDArray [foldr Z.add 0%Z (concat (omap array_of res))]).

(** A gradient transform that needs two shifted tapes for a parameter of a
    one-operation tape and four otherwise. *)
Definition two_or_four : GradientFn (A:=arr) :=
  λ t idx,
    (replicate (if decide (length (operations t) = 1) then 2 else 4) t,
     sum_results).

(** Batch execution under the engine: result number [i] is the boxed scalar
    [i]. *)
Definition numbered_results (tapes : list (QuantumTape arr))
    (cache : list unit) (_n : nat) : result (list (pyval arr)) :=
  Ok (map (λ i, ArrayBox (NDArray [Z.of_nat i])) (seq 0 (length tapes))).

(** [grad_fn] with these collaborators. *)
Definition grad_fn_example (tapes : list (QuantumTape arr)) (_n : nat)
    (dy : list (pyval arr)) : traced (list (pyval arr)) :=
  grad_fn np_reshape np_stack np_transpose np_tensordot numbered_results
          tapes two_or_four [] _n dy.

(** An upstream gradient with one row per tape of a two-tape batch. *)
Definition dy2 : list (pyval arr) := [NDArray [1%Z]; NDArray [1%Z]].

(** A device whose result for a tape is the sum of the parameters it finds
    on the tape. *)
Definition summing_device : Device (A:=arr) :=
  λ tapes,
    rmapM (λ t, let? params := get_parameters false t in Ok (sum_results params))
          tapes.

(** A block that overwrites the first parameter of the tape it is handed
    and returns nothing. *)
Definition overwriting_block (u : QuantumTape arr)
  : QuantumTape arr * result unit :=
  match write_loc (operations u) {| op := 0; p_idx := 0 |} (NDArray [9%Z]) with
  | Some ops => ({| operations := ops; _par_info := _par_info u;
                    trainable_params := ∅ |}, Ok ())
  | None => (u, Raise IndexError)
  end.

(** A gradient transform that needs two shifted tapes for every parameter. *)
Definition always_two : GradientFn (A:=arr) :=
  λ t idx, ([t; t], sum_results).

(** Batch execution under the engine that fails. *)
Definition failing_results (tapes : list (QuantumTape arr))
    (cache : list unit) (_n : nat) : result (list (pyval arr)) :=
  Raise (DeviceError 3).

(** A device that answers every batch with the empty result list. *)
Definition silent_device : Device (A:=arr) := λ _, Ok [].

(** A device that fails. *)
Definition failing_device : Device (A:=arr) := λ _, Raise (DeviceError 7).

End Examples.

(** * Properties *)

(** ** Fallible computations *)

Lemma rmapM_Ok_length {T U : Type} (f : T → result U) (xs : list T) (ys : list U) :
  rmapM f xs = Ok ys → length ys = length xs.
Proof.
  revert ys. induction xs as [|x xs IH]; intros ys; simpl.
  - by intros [= <-].
  - destruct (f x); simpl; [|done].
    destruct (rmapM f xs); simpl; [|done].
    intros [= <-]. simpl. f_equal. by apply IH.
Qed.

Lemma rmapM_Ok_Forall2 {T U : Type} (f : T → result U) (xs : list T) (ys : list U) :
  rmapM f xs = Ok ys ↔ Forall2 (λ x y, f x = Ok y) xs ys.
Proof.
  revert ys. induction xs as [|x xs IH]; intros ys; simpl.
  - split; [intros [= <-]; constructor | by inversion 1].
  - split.
    + destruct (f x) eqn:Hx; simpl; [|done].
      destruct (rmapM f xs) eqn:Hxs; simpl; [|done].
      intros [= <-]. constructor; [done|]. by apply IH.
    + inversion 1 as [|? y ? ys' Hx Hrest]; subst.
      rewrite Hx. simpl. apply IH in Hrest. by rewrite Hrest.
Qed.

Lemma rmapM_ext {T U : Type} (f g : T → result U) (xs : list T) :
  (∀ x, x ∈ xs → f x = g x) → rmapM f xs = rmapM g xs.
Proof.
  induction xs as [|x xs IH]; intros Hfg; simpl; [done|].
  rewrite (Hfg x) by set_solver. rewrite IH; [done|].
  intros y Hy. apply Hfg. set_solver.
Qed.

Lemma rmapM_total {T U : Type} (f : T → result U) (xs : list T) :
  Forall (λ x, ∃ y, f x = Ok y) xs → ∃ ys, rmapM f xs = Ok ys.
Proof.
  induction 1 as [|x xs [y Hy] _ [ys Hys]]; simpl; [by eexists|].
  rewrite Hy, Hys. simpl. by eexists.
Qed.

Lemma map_enumerate_index {T U : Type} (f : nat → U) (l : list T) :
  map (λ ie, f ie.1) (enumerate l) = map f (seq 0 (length l)).
Proof.
  unfold enumerate. generalize 0.
  induction l as [|x l IH]; intros k; simpl; [done|]. by rewrite IH.
Qed.

(** ** Unwrapping values *)

Section ValueLemmas.

Context {A : Type}.
Implicit Types v w : pyval A.

(** Without a depth bound, unwrapping an [ArrayBox] never fails. *)
Lemma _unwrap_arraybox_unbounded v n :
  ∃ w, _unwrap_arraybox (ArrayBox v) None n = Ok w.
Proof.
  revert n. induction v as [| | |v IH]; intros n; simpl; try by eexists.
  apply (IH (S n)).
Qed.

Lemma convert_one_total v : ∃ w, convert_one v = Ok w.
Proof.
  destruct v; simpl; try by eexists.
  apply _unwrap_arraybox_unbounded.
Qed.

Lemma convert_to_numpy_total (tensors : list (pyval A)) :
  ∃ unwrapped_tensors,
    convert_to_numpy tensors = Ok unwrapped_tensors ∧
    length unwrapped_tensors = length tensors.
Proof.
  destruct (rmapM_total convert_one tensors) as [ys Hys].
  { apply Forall_forall. intros v _. apply convert_one_total. }
  exists ys. split; [done|]. by eapply rmapM_Ok_length.
Qed.

(** With a bound [m], started at count [k < m], the unwrapping of a boxed
    value strips [min (m - k) depth] layers. *)
Lemma _unwrap_arraybox_bounded v m k :
  k < m →
  _unwrap_arraybox (ArrayBox v) (Some m) k =
  Ok (strip_layers (min (m - k) (box_depth (ArrayBox v))) (ArrayBox v)).
Proof.
  revert k. induction v as [| | |v IH]; intros k Hk.
  - simpl. destruct (Nat.eqb_spec k m); [lia|].
    destruct (m - k) as [|[|d]] eqn:Hd; [lia|done|done].
  - simpl. destruct (Nat.eqb_spec k m); [lia|].
    destruct (m - k) as [|[|d]] eqn:Hd; [lia|done|done].
  - simpl. destruct (Nat.eqb_spec k m); [lia|].
    destruct (m - k) as [|[|d]] eqn:Hd; [lia|done|done].
  - change (_unwrap_arraybox (ArrayBox (ArrayBox v)) (Some m) k)
      with (if Nat.eqb k m then Ok (ArrayBox (ArrayBox v))
            else _unwrap_arraybox (ArrayBox v) (Some m) (S k)).
    destruct (Nat.eqb_spec k m); [lia|].
    destruct (decide (S k = m)) as [<-|Hne].
    + simpl. rewrite Nat.eqb_refl.
      replace (S k - k) with 1 by lia. done.
    + rewrite IH by lia.
      replace (m - k) with (S (m - S k)) by lia.
      cbn [box_depth]. rewrite <-Nat.succ_min_distr. done.
Qed.

Lemma box_depth_strip_layers k v :
  box_depth (strip_layers k v) = box_depth v - k.
Proof.
  revert v. induction k as [|k IH]; intros v.
  - destruct v; simpl; lia.
  - destruct v; simpl; try lia. apply IH.
Qed.

Lemma is_ArrayBox_true v : is_ArrayBox v = true → ∃ v', v = ArrayBox v'.
Proof. destruct v; try done. by eexists. Qed.

End ValueLemmas.

(** ** Reading and writing the parameters of a tape *)

Section StoreLemmas.

Context {A : Type}.
Implicit Types (ops : list (Operator A)) (pi : ParInfo) (p : pyval A).
Implicit Types (t : QuantumTape A).

Lemma read_loc_Some ops pi p :
  read_loc ops pi = Some p ↔
  ∃ o, ops !! op pi = Some o ∧ data o !! p_idx pi = Some p.
Proof.
  unfold read_loc. destruct (ops !! op pi) as [o|]; simpl.
  - split; [by eexists | by intros (? & [= <-] & ?)].
  - split; [done | by intros (? & ? & ?)].
Qed.

Lemma shape_lookup ops ops' i :
  shape ops = shape ops' →
  length <$> (data <$> ops !! i) = length <$> (data <$> ops' !! i).
Proof.
  intros Hs. apply (f_equal (λ l, l !! i)) in Hs.
  unfold shape in Hs. rewrite !list_lookup_fmap in Hs.
  destruct (ops !! i), (ops' !! i); simpl in *; congruence.
Qed.

Lemma read_loc_shape ops ops' pi :
  shape ops = shape ops' →
  is_Some (read_loc ops pi) → is_Some (read_loc ops' pi).
Proof.
  intros Hs [p Hp]. apply read_loc_Some in Hp as (o & Ho & Hp).
  pose proof (shape_lookup _ _ (op pi) Hs) as Hl. rewrite Ho in Hl.
  destruct (ops' !! op pi) as [o'|] eqn:Ho'; [|done].
  simpl in Hl. injection Hl as Hl.
  apply lookup_lt_Some in Hp. rewrite Hl in Hp.
  apply lookup_lt_is_Some_2 in Hp as [p' Hp'].
  exists p'. apply read_loc_Some. eauto.
Qed.

Lemma ops_ext ops ops' :
  shape ops = shape ops' →
  (∀ pi, read_loc ops pi = read_loc ops' pi) →
  ops = ops'.
Proof.
  intros Hs Hread. apply list_eq. intros i.
  pose proof (shape_lookup _ _ i Hs) as Hl.
  destruct (ops !! i) as [[d]|] eqn:Ho, (ops' !! i) as [[d']|] eqn:Ho';
    simpl in Hl; try done.
  do 2 f_equal. apply list_eq. intros j.
  specialize (Hread {| op := i; p_idx := j |}).
  unfold read_loc in Hread. simpl in Hread. by rewrite Ho, Ho' in Hread.
Qed.

Lemma write_loc_Some ops pi p :
  is_Some (read_loc ops pi) → is_Some (write_loc ops pi p).
Proof.
  intros [q Hq]. apply read_loc_Some in Hq as (o & Ho & Hq).
  unfold write_loc. rewrite Ho. simpl.
  apply lookup_lt_Some in Hq. by rewrite decide_True.
Qed.

Lemma write_loc_inv ops pi p ops' :
  write_loc ops pi p = Some ops' →
  ∃ o, ops !! op pi = Some o ∧ p_idx pi < length (data o) ∧
       ops' = <[op pi := {| data := <[p_idx pi := p]> (data o) |}]> ops.
Proof.
  unfold write_loc. destruct (ops !! op pi) as [o|]; simpl; [|done].
  case_decide; [|done]. intros [= <-]. eauto.
Qed.

Lemma write_loc_shape ops pi p ops' :
  write_loc ops pi p = Some ops' → shape ops' = shape ops.
Proof.
  intros (o & Ho & Hlt & ->)%write_loc_inv. unfold shape.
  rewrite list_fmap_insert. simpl. rewrite length_insert.
  apply list_insert_id. rewrite list_lookup_fmap, Ho. done.
Qed.

Lemma read_write_eq ops pi p ops' :
  write_loc ops pi p = Some ops' → read_loc ops' pi = Some p.
Proof.
  intros (o & Ho & Hlt & ->)%write_loc_inv. apply read_loc_Some.
  eexists. split.
  - apply list_lookup_insert_eq. by eapply lookup_lt_Some.
  - simpl. by apply list_lookup_insert_eq.
Qed.

Lemma read_write_ne ops pi p ops' pi' :
  write_loc ops pi p = Some ops' → pi' ≠ pi →
  read_loc ops' pi' = read_loc ops pi'.
Proof.
  intros (o & Ho & Hlt & ->)%write_loc_inv Hne. unfold read_loc.
  destruct (decide (op pi' = op pi)) as [Heq|Hop].
  - rewrite Heq, Ho. rewrite list_lookup_insert_eq by by eapply lookup_lt_Some.
    simpl. apply list_lookup_insert_ne.
    intros Hp. apply Hne. destruct pi, pi'; simpl in *; congruence.
  - by rewrite list_lookup_insert_ne.
Qed.

(** Writing any values at readable positions succeeds, keeps the shape and
    leaves the other positions alone. *)
Lemma write_all_Ok (pis : list ParInfo) (vals : list (pyval A)) ops :
  length vals = length pis →
  Forall (λ pi, is_Some (read_loc ops pi)) pis →
  ∃ ops', write_all (zip pis vals) ops = (ops', Ok ()) ∧
          shape ops' = shape ops ∧
          ∀ pi, pi ∉ pis → read_loc ops' pi = read_loc ops pi.
Proof.
  revert vals ops. induction pis as [|pi pis IH]; intros vals ops Hlen Hall.
  - exists ops. by destruct vals.
  - destruct vals as [|v vals]; [done|]. simpl in Hlen.
    apply Forall_cons in Hall as [Hpi Hall].
    destruct (write_loc_Some ops pi v Hpi) as [ops1 Hw].
    pose proof (write_loc_shape _ _ _ _ Hw) as Hs1.
    destruct (IH vals ops1) as (ops' & Hw' & Hs' & Hoff).
    { lia. }
    { eapply Forall_impl; [exact Hall|]. intros pi'. simpl.
      by apply read_loc_shape. }
    exists ops'. simpl. rewrite Hw. split; [done|]. split; [congruence|].
    intros pi' Hnot. rewrite Hoff by set_solver.
    eapply read_write_ne; [done|set_solver].
Qed.

(** Writing back, position by position, the values that a store held puts
    that store back, whatever was written at those positions meanwhile. *)
Lemma write_all_restore (pis : list ParInfo) (vals : list (pyval A)) ops0 ops :
  shape ops = shape ops0 →
  Forall2 (λ pi v, read_loc ops0 pi = Some v) pis vals →
  (∀ pi, pi ∉ pis → read_loc ops pi = read_loc ops0 pi) →
  write_all (zip pis vals) ops = (ops0, Ok ()).
Proof.
  intros Hs Hread. revert ops Hs.
  induction Hread as [|pi v pis vals Hv Hrest IH]; intros ops Hs Hoff.
  - simpl. f_equal. apply ops_ext; [done|]. intros pi. apply Hoff. set_solver.
  - simpl.
    destruct (write_loc_Some ops pi v) as [ops1 Hw].
    { eapply read_loc_shape; [symmetry; exact Hs|]. by eexists. }
    rewrite Hw. apply IH.
    + rewrite <-Hs. by eapply write_loc_shape.
    + intros pi' Hnot. destruct (decide (pi' = pi)) as [->|Hne].
      * rewrite Hv. by eapply read_write_eq.
      * rewrite <-Hoff by (by apply not_elem_of_cons). by eapply read_write_ne.
Qed.

Lemma read_all_Forall2 t (params : list (pyval A)) :
  rmapM (read_par t) (_par_info t) = Ok params ↔
  Forall2 (λ pi v, read_loc (operations t) pi = Some v) (_par_info t) params.
Proof.
  rewrite rmapM_Ok_Forall2.
  split; intros H; (eapply Forall2_impl; [exact H|]); intros pi v;
    unfold read_par; destruct (read_loc (operations t) pi); simpl; congruence.
Qed.

End StoreLemmas.

(** ** The scoped unwrapping of a tape *)

Section ScopeLemmas.

Context {A : Type}.
Implicit Types (t u : QuantumTape A).

Lemma enter_Raise t e :
  get_trainable_params t = Raise e →
  UnwrapTape__enter__ (UnwrapTape__init__ t) = (UnwrapTape__init__ t, Raise e).
Proof. unfold UnwrapTape__enter__. simpl. by intros ->. Qed.

(** [__enter__] on a tape whose parameters can be read: it succeeds, and
    the tape it returns differs from the original in the trainable set and
    in the values at the parameter positions only. *)
Lemma enter_Ok t trainable original :
  get_trainable_params t = Ok (trainable, original) →
  ∃ unwrapped_params ops_u,
    convert_to_numpy original = Ok unwrapped_params ∧
    UnwrapTape__enter__ (UnwrapTape__init__ t) =
      ({| tape := {| operations := ops_u; _par_info := _par_info t;
                     trainable_params := trainable |};
          _original_params := Some original;
          _unwrapped_params := Some unwrapped_params |},
       Ok {| operations := ops_u; _par_info := _par_info t;
             trainable_params := trainable |}) ∧
    shape ops_u = shape (operations t) ∧
    ∀ pi, pi ∉ _par_info t → read_loc ops_u pi = read_loc (operations t) pi.
Proof.
  intros Hget. unfold UnwrapTape__enter__. simpl. rewrite Hget.
  unfold get_trainable_params in Hget.
  destruct (rmapM (read_par t) (_par_info t)) as [params|] eqn:Hread;
    simpl in Hget; [|done].
  injection Hget as <- <-.
  destruct (convert_to_numpy_total params) as (unwrapped_params & Hconv & Hlen).
  pose proof (rmapM_Ok_length _ _ _ Hread) as Hlen'.
  apply read_all_Forall2 in Hread.
  destruct (write_all_Ok (_par_info t) unwrapped_params (operations t))
    as (ops_u & Hw & Hs & Hoff).
  { congruence. }
  { eapply Forall2_Forall_l; [exact Hread|].
    apply Forall_forall. intros v _ pi Hpi. by eexists. }
  exists unwrapped_params, ops_u. rewrite Hconv.
  unfold set_parameters. simpl. rewrite decide_True by congruence.
  rewrite Hw. simpl. done.
Qed.

(** [__exit__] after such an [__enter__] puts the operations back. *)
Lemma exit_after_enter t original unwrapped_params ops_u trainable :
  rmapM (read_par t) (_par_info t) = Ok original →
  shape ops_u = shape (operations t) →
  (∀ pi, pi ∉ _par_info t → read_loc ops_u pi = read_loc (operations t) pi) →
  UnwrapTape__exit__
    {| tape := {| operations := ops_u; _par_info := _par_info t;
                  trainable_params := trainable |};
       _original_params := Some original;
       _unwrapped_params := unwrapped_params |} =
  ({| tape := {| operations := operations t; _par_info := _par_info t;
                 trainable_params := trainable |};
      _original_params := Some original;
      _unwrapped_params := unwrapped_params |}, Ok ()).
Proof.
  intros Hread Hs Hoff. unfold UnwrapTape__exit__, set_parameters. simpl.
  pose proof (rmapM_Ok_length _ _ _ Hread) as Hlen.
  rewrite decide_True by done.
  apply read_all_Forall2 in Hread.
  by rewrite (write_all_restore _ _ (operations t) ops_u Hs Hread Hoff).
Qed.

Lemma unwrapped_Raise t e :
  get_trainable_params t = Raise e → unwrapped t = Raise e.
Proof. intros H. unfold unwrapped. by rewrite (enter_Raise _ _ H). Qed.

Lemma unwrapped_Ok t trainable original :
  get_trainable_params t = Ok (trainable, original) →
  ∃ u, unwrapped t = Ok u.
Proof.
  intros H. destruct (enter_Ok _ _ _ H) as (? & ? & _ & Henter & _).
  unfold unwrapped. rewrite Henter. by eexists.
Qed.

(** The whole statement: the tape is left as [after_scope] says, and the
    outcome is that of the block on the unwrapped tape, or the exception of
    [__enter__]. *)
Lemma with_UnwrapTape_spec {R : Type} t (body : QuantumTape A → result R) :
  with_UnwrapTape t body = (after_scope t, let? u := unwrapped t in body u).
Proof.
  unfold with_UnwrapTape, after_scope, unwrapped.
  destruct (get_trainable_params t) as [[trainable original]|e] eqn:Hget.
  - destruct (enter_Ok _ _ _ Hget)
      as (unwrapped_params & ops_u & _ & Henter & Hs & Hoff).
    rewrite Henter. simpl.
    unfold get_trainable_params in Hget.
    destruct (rmapM (read_par t) (_par_info t)) as [params|] eqn:Hread;
      simpl in Hget; [|done].
    injection Hget as <- <-.
    rewrite (exit_after_enter t params _ ops_u _ Hread Hs Hoff). simpl.
    by destruct (body _).
  - rewrite (enter_Raise _ _ Hget). simpl. done.
Qed.

End ScopeLemmas.

(** ** The forward pass *)

Section ForwardLemmas.

Context {A CacheEntry : Type}.
Implicit Types (t u : QuantumTape A) (tapes : list (QuantumTape A)).

(** The outcome of the [ExitStack] block: the block runs on the unwrapped
    tapes, and no [__exit__] changes its outcome. *)
Lemma exit_stack_outcome {R : Type} tapes (entered : list (QuantumTape A))
    (block : list (QuantumTape A) → result R) :
  (exit_stack tapes entered block).2 =
  let? us := rmapM unwrapped tapes in block (entered ++ us).
Proof.
  revert entered. induction tapes as [|t ts IH]; intros entered; simpl.
  { by rewrite app_nil_r. }
  destruct (get_trainable_params t) as [[trainable original]|e] eqn:Hget.
  - destruct (enter_Ok _ _ _ Hget)
      as (unwrapped_params & ops_u & _ & Henter & Hs & Hoff).
    unfold unwrapped at 1. rewrite Henter. simpl.
    specialize (IH (entered ++
      [{| operations := ops_u; _par_info := _par_info t;
          trainable_params := trainable |}])).
    destruct (exit_stack ts _ block) as [ts' out]. simpl in IH.
    unfold get_trainable_params in Hget.
    destruct (rmapM (read_par t) (_par_info t)) as [params|] eqn:Hread;
      simpl in Hget; [|done].
    injection Hget as <- <-.
    rewrite (exit_after_enter t params _ ops_u _ Hread Hs Hoff). simpl.
    rewrite IH. destruct (rmapM unwrapped ts); simpl; [|done].
    by rewrite <-app_assoc.
  - rewrite (unwrapped_Raise _ _ Hget), (enter_Raise _ _ Hget). done.
Qed.

(** The tapes after the [ExitStack] block, when every [__enter__] succeeds. *)
Lemma exit_stack_tapes {R : Type} tapes (entered us : list (QuantumTape A))
    (block : list (QuantumTape A) → result R) :
  rmapM unwrapped tapes = Ok us →
  (exit_stack tapes entered block).1 = map after_scope tapes.
Proof.
  revert entered us. induction tapes as [|t ts IH]; intros entered us; simpl.
  { done. }
  destruct (get_trainable_params t) as [[trainable original]|e] eqn:Hget.
  - destruct (enter_Ok _ _ _ Hget)
      as (unwrapped_params & ops_u & _ & Henter & Hs & Hoff).
    unfold unwrapped at 1. rewrite Henter. simpl.
    destruct (rmapM unwrapped ts) as [us'|] eqn:Hus; simpl; [|done].
    intros _.
    specialize (IH (entered ++
      [{| operations := ops_u; _par_info := _par_info t;
          trainable_params := trainable |}]) us' eq_refl).
    destruct (exit_stack ts _ block) as [ts' out]. simpl in IH.
    unfold after_scope at 1. rewrite Hget.
    unfold get_trainable_params in Hget.
    destruct (rmapM (read_par t) (_par_info t)) as [params|] eqn:Hread;
      simpl in Hget; [|done].
    injection Hget as <- <-.
    rewrite (exit_after_enter t params _ ops_u _ Hread Hs Hoff). simpl.
    by rewrite IH.
  - by rewrite (unwrapped_Raise _ _ Hget).
Qed.

(** What the device is handed depends on the operations and the parameter
    layout of a tape, not on its trainable set. *)
Lemma unwrapped_same_parameters t1 t2 :
  same_parameters t1 t2 → unwrapped t1 = unwrapped t2.
Proof.
  destruct t1 as [ops1 pis1 T1], t2 as [ops2 pis2 T2].
  intros [Hops Hpis]. simpl in *. subst.
  unfold unwrapped, UnwrapTape__enter__, UnwrapTape__init__,
    get_trainable_params, read_par. simpl.
  destruct (rmapM _ pis2) as [params|]; simpl; [|done].
  destruct (convert_to_numpy params) as [unwrapped_params|]; simpl; [|done].
  unfold set_parameters. simpl. case_decide; simpl; [|done].
  by destruct (write_all _ _).
Qed.

Lemma rmapM_unwrapped_same_parameters tapes1 tapes2 :
  Forall2 same_parameters tapes1 tapes2 →
  rmapM (unwrapped (A:=A)) tapes1 = rmapM unwrapped tapes2.
Proof.
  induction 1 as [|t1 t2 ts1 ts2 Ht _ IH]; simpl; [done|].
  by rewrite (unwrapped_same_parameters _ _ Ht), IH.
Qed.

(** On a well-formed tape, [get_parameters()] succeeds. *)
Lemma get_parameters_wf t :
  tape_wf t → ∃ params, get_parameters true t = Ok params.
Proof.
  intros [Hread Htrain]. unfold get_parameters. apply rmapM_total.
  apply Forall_forall. intros idx Hidx.
  rewrite merge_sort_Permutation in Hidx. apply elem_of_elements in Hidx.
  apply Htrain, lookup_lt_is_Some_2 in Hidx as [pi Hpi]. rewrite Hpi. simpl.
  rewrite Forall_forall in Hread.
  destruct (Hread pi) as [p Hp]; [by eapply list_elem_of_lookup_2|].
  exists p. unfold read_par. by rewrite Hp.
Qed.

Lemma rmapM_get_parameters_wf tapes :
  Forall tape_wf tapes → ∃ parameters, rmapM (get_parameters true) tapes = Ok parameters.
Proof.
  intros H. apply rmapM_total. eapply Forall_impl; [exact H|].
  intros t. apply get_parameters_wf.
Qed.

(** The outcome of [batch_execute]: the answer of the device on the
    unwrapped tapes, as the primitive returns it. *)
Lemma batch_execute_outcome (expval_grad : GradientFn)
    (outer_traces : list (list (pyval A)) → nat) tapes (device : Device)
    gradient_fn (cache : option (list CacheEntry)) _n :
  (batch_execute expval_grad outer_traces tapes device gradient_fn cache _n).2 =
  let? parameters := rmapM (get_parameters true) tapes in
  let? us := rmapM unwrapped tapes in
  let? ans := device us in
  Ok (primitive_answer outer_traces parameters ans).
Proof.
  unfold batch_execute, _batch_execute.
  destruct (rmapM (get_parameters true) tapes) as [parameters|e]; [|done].
  simpl.
  pose proof (exit_stack_outcome tapes [] device) as Hout.
  destruct (exit_stack tapes [] device) as [tapes' res]. simpl in *.
  rewrite Hout. by destruct (rmapM unwrapped tapes).
Qed.

(** The tapes after [batch_execute], when every tape can be read. *)
Lemma batch_execute_tapes (expval_grad : GradientFn)
    (outer_traces : list (list (pyval A)) → nat) tapes (device : Device)
    gradient_fn (cache : option (list CacheEntry)) _n :
  Forall tape_wf tapes →
  (batch_execute expval_grad outer_traces tapes device gradient_fn cache _n).1 =
  map after_scope tapes.
Proof.
  intros Hwf.
  destruct (rmapM_get_parameters_wf tapes Hwf) as [parameters Hp].
  destruct (rmapM_total unwrapped tapes) as [us Hus].
  { eapply Forall_impl; [exact Hwf|]. intros t [Hread _].
    destruct (rmapM_total (read_par t) (_par_info t)) as [params Hps].
    { eapply Forall_impl; [exact Hread|]. intros pi [p Hpi].
      exists p. unfold read_par. by rewrite Hpi. }
    eapply (unwrapped_Ok t (classify params) params).
    unfold get_trainable_params. by rewrite Hps. }
  unfold batch_execute, _batch_execute. rewrite Hp. simpl.
  pose proof (exit_stack_tapes tapes [] us device Hus) as Htapes.
  by destruct (exit_stack tapes [] device).
Qed.

End ForwardLemmas.

(** ** Logged computations *)

Section TracedLemmas.

Context {A CacheEntry : Type}.
#[local] Abbreviation event := (event A CacheEntry).
#[local] Abbreviation traced := (traced (A:=A) (CacheEntry:=CacheEntry)).

Lemma tbind_Ok {T U : Type} (m : traced T) (f : T → traced U) log x :
  m = (log, Ok x) → tbind m f = (log ++ (f x).1, (f x).2).
Proof. intros ->. simpl. by destruct (f x). Qed.

Lemma tbind_Raise {T U : Type} (m : traced T) (f : T → traced U) log e :
  m = (log, Raise e) → tbind m f = (log, Raise e).
Proof. by intros ->. Qed.

Lemma tbind_inv_Ok {T U : Type} (m : traced T) (f : T → traced U) log y :
  tbind m f = (log, Ok y) →
  ∃ log1 x log2, m = (log1, Ok x) ∧ f x = (log2, Ok y) ∧ log = log1 ++ log2.
Proof.
  destruct m as [log1 [x|e]]; simpl; [|done].
  destruct (f x) as [log2 r] eqn:Hf. intros [= <- ->]. by exists log1, x, log2.
Qed.

Lemma tbind_log_Forall {T U : Type} (P : event → Prop)
    (m : traced T) (f : T → traced U) :
  Forall P m.1 → (∀ x, Forall P (f x).1) → Forall P (tbind m f).1.
Proof.
  destruct m as [log [x|e]]; simpl; intros Hm Hf; [|done].
  specialize (Hf x). destruct (f x). simpl in *. by apply Forall_app.
Qed.

Lemma tfoldl_log_Forall {S T : Type} (P : event → Prop)
    (f : S → T → traced S) acc xs :
  (∀ acc x, Forall P (f acc x).1) → Forall P (tfoldl f acc xs).1.
Proof.
  intros Hf. revert acc. induction xs as [|x xs IH]; intros acc; simpl.
  - constructor.
  - by apply tbind_log_Forall.
Qed.


Lemma gradient_calls_app (l1 l2 : list event) :
  gradient_calls (l1 ++ l2) = gradient_calls l1 ++ gradient_calls l2.
Proof. apply omap_app. Qed.

Lemma batch_execute_depths_app (l1 l2 : list event) :
  batch_execute_depths (l1 ++ l2) =
  batch_execute_depths l1 ++ batch_execute_depths l2.
Proof. apply omap_app. Qed.


End TracedLemmas.

(** ** The gradient rule *)

Section GradLemmas.

Context {A CacheEntry : Type}.
Context (np_reshape : pyval A → list Z → result (pyval A)).
Context (np_stack : list (pyval A) → result (pyval A)).
Context (np_transpose : pyval A → result (pyval A)).
Context (np_tensordot : pyval A → pyval A → result (pyval A)).
Context (traced_batch_execute :
  list (QuantumTape A) → list CacheEntry → nat → result (list (pyval A))).
Context (tapes : list (QuantumTape A)).
Context (gradient_fn : GradientFn (A:=A)).
Context (cache : list CacheEntry).
Context (_n : nat).

#[local] Abbreviation event := (event A CacheEntry).
#[local] Abbreviation grad_fn' :=
  (grad_fn np_reshape np_stack np_transpose np_tensordot traced_batch_execute
           tapes gradient_fn cache _n).
#[local] Abbreviation grad_fn_vjp' :=
  (grad_fn_vjp np_reshape np_stack np_transpose np_tensordot
               traced_batch_execute tapes gradient_fn cache _n).
#[local] Abbreviation row' :=
  (row (CacheEntry:=CacheEntry) np_reshape np_stack np_transpose np_tensordot
       tapes).

(** The loop over the trainable set of one tape never raises and calls
    [gradient_fn] once per position. *)
Lemma generate_params_spec (t : QuantumTape A) (st : generated A)
    (l : list (nat * nat)) :
  ∃ st', tfoldl (generate_param (CacheEntry:=CacheEntry) gradient_fn t) st l =
         (map (λ ie, GradientFnCall t ie.1) l, Ok st').
Proof.
  revert st. induction l as [|[idx elem] l IH]; intros st; simpl.
  - by eexists.
  - unfold generate_param at 1. simpl.
    destruct (gradient_fn t idx) as [g_tapes fn]. simpl.
    edestruct IH as [st' Hst']. rewrite Hst'. simpl. by eexists.
Qed.

Lemma generate_tapes_spec (ts : list (QuantumTape A)) (st : generated A) :
  ∃ g, tfoldl (generate_tape (CacheEntry:=CacheEntry) gradient_fn) st ts =
       (flat_map (λ t, map (GradientFnCall t)
                           (seq 0 (size (trainable_params t)))) ts,
        Ok g).
Proof.
  revert st. induction ts as [|t ts IH]; intros st; simpl.
  - by eexists.
  - unfold generate_tape at 1.
    edestruct (generate_params_spec t) as [st' Hst']. rewrite Hst'. simpl.
    edestruct IH as [g Hg]. rewrite Hg. simpl. exists g. do 2 f_equal.
    apply (map_enumerate_index (GradientFnCall t)).
Qed.

Lemma column_log results acc fn_len :
  Forall (is_postprocess (A:=A) (CacheEntry:=CacheEntry)) (column (CacheEntry:=CacheEntry) results acc fn_len).1.
Proof.
  destruct acc as [jac start], fn_len as [fn res_len]. simpl.
  by repeat constructor.
Qed.

Lemma row_log g results acc t_d :
  Forall (is_postprocess (A:=A) (CacheEntry:=CacheEntry)) (row' g results acc t_d).1.
Proof.
  destruct acc as [vjp start], t_d as [t d]. unfold row.
  apply tbind_log_Forall; [constructor|]. intros tape_t.
  destruct (Nat.eqb _ 0); [constructor|].
  apply tbind_log_Forall; [constructor|]. intros fns.
  apply tbind_log_Forall.
  { apply tfoldl_log_Forall. intros. apply column_log. }
  intros [jac start'].
  repeat (apply tbind_log_Forall; [constructor|]; intros ?).
  constructor.
Qed.

(** Each row appends one entry to [vjp]. *)
Lemma row_appends g results vjp start t_d log vjp' start' :
  row' g results (vjp, start) t_d = (log, Ok (vjp', start')) →
  ∃ v, vjp' = vjp ++ [v].
Proof.
  destruct t_d as [t d]. unfold row.
  intros (? & tape_t & ? & _ & H & _)%tbind_inv_Ok.
  destruct (Nat.eqb _ 0).
  { injection H as _ <- _. by eexists. }
  apply tbind_inv_Ok in H as (? & fns & ? & _ & H & _).
  apply tbind_inv_Ok in H as (? & [jac s] & ? & _ & H & _).
  do 5 (apply tbind_inv_Ok in H as (? & ? & ? & _ & H & _)).
  injection H as _ <- _. by eexists.
Qed.

Lemma rows_append g results xs vjp start log vjp' start' :
  tfoldl (row' g results) (vjp, start) xs = (log, Ok (vjp', start')) →
  ∃ vs, vjp' = vjp ++ vs ∧ length vs = length xs.
Proof.
  revert vjp start log. induction xs as [|x xs IH]; intros vjp start log; simpl.
  - intros [= _ <- _]. exists []. by rewrite app_nil_r.
  - intros (? & [vjp1 start1] & ? & Hrow & Hrest & _)%tbind_inv_Ok.
    apply row_appends in Hrow as [v ->].
    apply IH in Hrest as (vs & -> & Hlen).
    exists (v :: vs). rewrite <-app_assoc. simpl. by rewrite Hlen.
Qed.

(** The log of [grad_fn]: the calls of [gradient_fn], one per tape and
    position, then the one recursive call of [batch_execute], then calls of
    post-processing functions. *)
Lemma grad_fn_vjp_log dy :
  ∃ g rest,
    (grad_fn_vjp' dy).1 =
      flat_map (λ t, map (GradientFnCall t)
                         (seq 0 (size (trainable_params t)))) tapes
      ++ BatchExecuteCall (gradient_tapes g) cache (_n + 1) :: rest ∧
    Forall (is_postprocess (A:=A) (CacheEntry:=CacheEntry)) rest.
Proof.
  unfold grad_fn_vjp, generate.
  edestruct (generate_tapes_spec tapes) as [g Hg]. rewrite Hg. clear Hg.
  exists g. simpl.
  destruct (traced_batch_execute _ _ _) as [results|e]; simpl.
  - pose proof (tfoldl_log_Forall (is_postprocess (A:=A) (CacheEntry:=CacheEntry)) (row' g results) ([], 0)
                  (zip (seq 0 (length tapes)) dy) (row_log g results)) as Hlog.
    destruct (tfoldl _ _ _) as [log [[vjp start]|e]]; simpl in *.
    + eexists. split; [done|]. by rewrite app_nil_r.
    + eexists. split; [done|]. done.
  - eexists. split; [done|]. constructor.
Qed.

Lemma grad_fn_log dy : (grad_fn' dy).1 = (grad_fn_vjp' dy).1.
Proof.
  unfold grad_fn. destruct (grad_fn_vjp' dy) as [log [vjp|e]]; simpl; [|done].
  by rewrite app_nil_r.
Qed.

Lemma gradient_calls_postprocess (log : list event) :
  Forall (is_postprocess (A:=A) (CacheEntry:=CacheEntry)) log → gradient_calls log = [].
Proof.
  induction 1 as [|e log He _ IH]; [done|]. destruct e; try done.
Qed.

Lemma batch_execute_depths_postprocess (log : list event) :
  Forall (is_postprocess (A:=A) (CacheEntry:=CacheEntry)) log → batch_execute_depths log = [].
Proof.
  induction 1 as [|e log He _ IH]; [done|]. destruct e; try done.
Qed.

Lemma gradient_calls_generated (ts : list (QuantumTape A)) :
  gradient_calls (CacheEntry:=CacheEntry)
    (flat_map (λ t, map (GradientFnCall t)
                        (seq 0 (size (trainable_params t)))) ts) =
  calls_by_position ts.
Proof.
  unfold calls_by_position, gradient_calls.
  induction ts as [|t ts IH]; simpl; [done|].
  rewrite omap_app, IH. f_equal.
  induction (seq 0 _) as [|i l IHl]; simpl; [done|]. by rewrite <-IHl.
Qed.

Lemma batch_execute_depths_generated (ts : list (QuantumTape A)) :
  batch_execute_depths (CacheEntry:=CacheEntry)
    (flat_map (λ t, map (GradientFnCall t)
                        (seq 0 (size (trainable_params t)))) ts) = [].
Proof.
  unfold batch_execute_depths.
  induction ts as [|t ts IH]; simpl; [done|].
  rewrite omap_app, IH, app_nil_r.
  induction (seq 0 _) as [|i l IHl]; simpl; [done|]. by rewrite <-IHl.
Qed.

(** [grad_fn] at depth [_n] invokes [batch_execute] once, at depth
    [_n + 1]. *)
Lemma batch_execute_depths_grad_fn dy :
  batch_execute_depths (grad_fn' dy).1 = [_n + 1].
Proof.
  rewrite grad_fn_log.
  destruct (grad_fn_vjp_log dy) as (g & rest & -> & Hrest).
  rewrite batch_execute_depths_app, batch_execute_depths_generated.
  change (batch_execute_depths (BatchExecuteCall ?ts ?c ?n :: rest))
    with (n :: batch_execute_depths rest).
  by rewrite (batch_execute_depths_postprocess rest Hrest).
Qed.

End GradLemmas.

(** * The claims *)

(** ** Scoped unwrapping *)

(** C1 (as amended). For every tape and every block, normal or raising,
    the scoped unwrapping leaves every operation and every parameter of the
    tape, trainable or not, as it found them. The trainable set is not put
    back: it is left at the set that [get_trainable_params] computed on
    entry (and untouched when that computation raises). *)
Theorem UnwrapTape_round_trip {A R : Type} (t : QuantumTape A)
    (body : QuantumTape A → result R) :
  let t' := (with_UnwrapTape t body).1 in
  operations t' = operations t ∧
  _par_info t' = _par_info t ∧
  get_parameters false t' = get_parameters false t ∧
  trainable_params t' =
    match get_trainable_params t with
    | Ok (trainable, _) => trainable
    | Raise _ => trainable_params t
    end.
Proof.
  rewrite with_UnwrapTape_spec. simpl. unfold after_scope.
  by destruct (get_trainable_params t) as [[trainable original]|e].
Qed.

(** C1, counterexample. The tape of the docstring enters the block with the
    trainable set [{0, 1, 2}] of a fresh tape and leaves it with [{0, 2}]. *)
Lemma UnwrapTape_trainable_params_not_restored :
  trainable_params (with_UnwrapTape Examples.doc_tape (λ _, Ok ())).1
  ≠ trainable_params Examples.doc_tape.
Proof.
  rewrite with_UnwrapTape_spec. cbn [fst]. unfold after_scope.
  assert (get_trainable_params Examples.doc_tape =
          Ok ({[0; 2]}, Examples.doc_params)) as ->
    by (vm_compute; reflexivity).
  simpl. intros H.
  assert (1 ∈ ({[0; 2]} : gset nat)) as Hin by (rewrite H; set_solver).
  set_solver.
Qed.

(** ** Classification and conversion *)

(** C7. On the tape with parameters [[tensor(0.1, requires_grad=True), 0.2,
    tensor(0.3, requires_grad=True)]], [get_trainable_params] returns the
    trainable set [{0, 2}] with the original parameters; [convert_to_numpy]
    turns them into the plain numbers [[0.1, 0.2, 0.3]], the second of which
    is the very value that was passed in; and these are the parameters of
    the tape inside the scoped unwrapping. *)
Theorem unwrap_docstring_tape :
  get_trainable_params Examples.doc_tape = Ok ({[0; 2]}, Examples.doc_params) ∧
  convert_to_numpy Examples.doc_params =
    Ok [NDArray 0.1%float; NDArray 0.2%float; NDArray 0.3%float] ∧
  (let? out := convert_to_numpy Examples.doc_params in
   Ok (out !! 1)) = Ok (Examples.doc_params !! 1) ∧
  (let? u := unwrapped Examples.doc_tape in get_parameters false u) =
    Ok [NDArray 0.1%float; NDArray 0.2%float; NDArray 0.3%float].
Proof. repeat split; vm_compute; reflexivity. Qed.

(** ** The forward pass *)

Lemma same_values_unwrapped {A : Type} (tapes1 tapes2 : list (QuantumTape A)) :
  Forall2 same_values tapes1 tapes2 →
  ∃ us1 us2, rmapM unwrapped tapes1 = Ok us1 ∧
             rmapM unwrapped tapes2 = Ok us2 ∧
             Forall2 same_parameters us1 us2.
Proof.
  induction 1 as [|t1 t2 ts1 ts2 Ht _ (us1 & us2 & H1 & H2 & Hus)]; simpl.
  { exists [], []. by repeat split. }
  unfold same_values in Ht.
  destruct (unwrapped t1) as [u1|]; [|done].
  destruct (unwrapped t2) as [u2|]; [|done].
  rewrite H1, H2. simpl. exists (u1 :: us1), (u2 :: us2).
  repeat split. by constructor.
Qed.

Lemma let_Ok_id {T : Type} (r : result T) : (let? x := r in Ok x) = r.
Proof. by destruct r. Qed.

(** C8 (as amended). For a deterministic device whose answer is a function
    of the operations and parameter values of the tapes it is handed, two
    calls of [batch_execute] on tapes that hold identical parameter values
    (identical after unwrapping: the parameter objects, their flags and the
    trainable sets may differ) get the same answer from the device, whatever
    the gradient transforms, caches and nesting depths. What each call
    returns is that answer as the primitive returns it: as it is when no
    parameter at a trainable position is an [ArrayBox], boxed by the engine
    otherwise. So the two calls return identical results when neither batch
    has a boxed trainable parameter, and results that differ in boxing
    only otherwise. *)
Theorem batch_execute_deterministic {A CacheEntry : Type}
    (expval_grad : GradientFn (A:=A))
    (outer_traces : list (list (pyval A)) → nat) (device : Device)
    (tapes1 tapes2 : list (QuantumTape A))
    (gradient_fn1 gradient_fn2 : option GradientFn)
    (cache1 cache2 : option (list CacheEntry)) (_n1 _n2 : option nat)
    (parameters1 parameters2 : list (list (pyval A))) :
  reads_parameters_only device →
  Forall2 same_values tapes1 tapes2 →
  rmapM (get_parameters true) tapes1 = Ok parameters1 →
  rmapM (get_parameters true) tapes2 = Ok parameters2 →
  let out1 := (batch_execute expval_grad outer_traces tapes1 device
                             gradient_fn1 cache1 _n1).2 in
  let out2 := (batch_execute expval_grad outer_traces tapes2 device
                             gradient_fn2 cache2 _n2).2 in
  ∃ us1 us2,
    rmapM unwrapped tapes1 = Ok us1 ∧
    rmapM unwrapped tapes2 = Ok us2 ∧
    device us1 = device us2 ∧
    out1 = (let? ans := device us1 in
            Ok (primitive_answer outer_traces parameters1 ans)) ∧
    out2 = (let? ans := device us1 in
            Ok (primitive_answer outer_traces parameters2 ans)) ∧
    (has_box parameters1 = false → has_box parameters2 = false →
     out1 = out2 ∧ out1 = device us1).
Proof.
  intros Hdev Hsame Hp1 Hp2 out1 out2.
  destruct (same_values_unwrapped _ _ Hsame) as (us1 & us2 & H1 & H2 & Hus).
  exists us1, us2. pose proof (Hdev _ _ Hus) as Hans.
  assert (out1 = (let? ans := device us1 in
                  Ok (primitive_answer outer_traces parameters1 ans))) as E1.
  { unfold out1. rewrite batch_execute_outcome, Hp1. simpl. by rewrite H1. }
  assert (out2 = (let? ans := device us1 in
                  Ok (primitive_answer outer_traces parameters2 ans))) as E2.
  { unfold out2. rewrite batch_execute_outcome, Hp2. simpl.
    by rewrite H2, Hans. }
  repeat split; try done.
  - rewrite E1, E2. unfold primitive_answer. unfold has_box in *.
    by rewrite H, H0.
  - rewrite E1. unfold primitive_answer. unfold has_box in *. rewrite H.
    apply let_Ok_id.
Qed.

Lemma summing_device_reads_parameters_only :
  reads_parameters_only Examples.summing_device.
Proof.
  intros us1 us2 Hus. unfold Examples.summing_device.
  induction Hus as [|u1 u2 us1 us2 [Hops Hpis] _ IH]; [reflexivity|].
  assert (get_parameters false u1 = get_parameters false u2) as E.
  { unfold get_parameters, read_par. rewrite Hops, Hpis. reflexivity. }
  simpl in *. rewrite E, IH. reflexivity.
Defined.

(** C8 at a concrete pair of batches: a tape whose parameter is the tensor
    1 (trainable) and a tape whose parameter is the plain number 1, with
    different caches and depths. *)
Lemma batch_execute_deterministic_witness :
  ∃ us1 us2,
    rmapM unwrapped [Examples.tape_tensor] = Ok us1 ∧
    rmapM unwrapped [Examples.tape_plain] = Ok us2 ∧
    Examples.summing_device us1 = Examples.summing_device us2 ∧
    (batch_execute (CacheEntry:=unit) Examples.two_or_four Examples.first_order
       [Examples.tape_tensor] Examples.summing_device None None None).2 =
      (let? ans := Examples.summing_device us1 in
       Ok (primitive_answer Examples.first_order [[Tensor [1%Z] true]] ans)) ∧
    (batch_execute (CacheEntry:=unit) Examples.two_or_four Examples.first_order
       [Examples.tape_plain] Examples.summing_device None (Some [])
       (Some 2)).2 =
      (let? ans := Examples.summing_device us1 in
       Ok (primitive_answer Examples.first_order [[]] ans)) ∧
    (has_box [[Tensor [1%Z] true]] = false →
     has_box ([[]] : list (list (pyval Examples.arr))) = false →
     (batch_execute (CacheEntry:=unit) Examples.two_or_four
        Examples.first_order [Examples.tape_tensor] Examples.summing_device
        None None None).2 =
     (batch_execute (CacheEntry:=unit) Examples.two_or_four
        Examples.first_order [Examples.tape_plain] Examples.summing_device
        None (Some []) (Some 2)).2 ∧
     (batch_execute (CacheEntry:=unit) Examples.two_or_four
        Examples.first_order [Examples.tape_tensor] Examples.summing_device
        None None None).2 = Examples.summing_device us1).
Proof.
  apply (batch_execute_deterministic (CacheEntry:=unit) Examples.two_or_four
           Examples.first_order Examples.summing_device
           [Examples.tape_tensor] [Examples.tape_plain]).
  - apply summing_device_reads_parameters_only.
  - constructor; [|constructor]. vm_compute. split; reflexivity.
  - vm_compute. reflexivity.
  - vm_compute. reflexivity.
Defined.

(** C8, counterexample. Two tapes with the same operations and parameter
    values: the parameter, an [ArrayBox], is in the trainable set of the
    first and not of the second. The device gives the same answer for both;
    [batch_execute] returns it boxed for the first and plain for the
    second. So do two calls in a row on the second tape: the first call
    returns the answer plain and leaves the parameter in the trainable set,
    the second call returns the answer boxed. *)
Lemma batch_execute_result_depends_on_trainable_params :
  let call := λ tapes,
    batch_execute (CacheEntry:=unit) Examples.two_or_four Examples.first_order
                  tapes Examples.summing_device None None None in
  same_values Examples.tape_one Examples.tape_one_frozen ∧
  operations Examples.tape_one = operations Examples.tape_one_frozen ∧
  (call [Examples.tape_one]).2 = Ok [ArrayBox (NDArray [1%Z])] ∧
  (call [Examples.tape_one_frozen]).2 = Ok [NDArray [1%Z]] ∧
  (call [Examples.tape_one]).2 ≠ (call [Examples.tape_one_frozen]).2 ∧
  (call (call [Examples.tape_one_frozen]).1).2 =
    Ok [ArrayBox (NDArray [1%Z])] ∧
  (call (call [Examples.tape_one_frozen]).1).2 ≠
    (call [Examples.tape_one_frozen]).2.
Proof.
  cbv zeta.
  split; [vm_compute; by split|]. split; [reflexivity|].
  split; [vm_compute; reflexivity|]. split; [vm_compute; reflexivity|].
  split; [intros H; vm_compute in H; discriminate|].
  split; [vm_compute; reflexivity|].
  intros H. vm_compute in H. discriminate.
Qed.

(** C6 (as amended). [batch_execute] does not check that [tapes] is
    non-empty: on the empty batch it hands the device the empty batch and
    returns what the device returns. On well-formed tapes, an exception of
    the device is the exception of [batch_execute], and the tapes are left
    as the scoped unwrapping leaves them. *)
Theorem batch_execute_errors {A CacheEntry : Type}
    (expval_grad : GradientFn (A:=A))
    (outer_traces : list (list (pyval A)) → nat) (device : Device)
    (gradient_fn : option GradientFn) (cache : option (list CacheEntry))
    (_n : option nat) :
  batch_execute expval_grad outer_traces [] device gradient_fn cache _n =
  ([], device [])
  ∧ ∀ tapes us e,
      Forall tape_wf tapes →
      rmapM unwrapped tapes = Ok us →
      device us = Raise e →
      batch_execute expval_grad outer_traces tapes device gradient_fn cache _n =
      (map after_scope tapes, Raise e).
Proof.
  split.
  { unfold batch_execute, _batch_execute. simpl. f_equal. apply let_Ok_id. }
  intros tapes us e Hwf Hus He.
  apply injective_projections.
  - by apply batch_execute_tapes.
  - rewrite (batch_execute_outcome (CacheEntry:=CacheEntry)).
    destruct (rmapM_get_parameters_wf tapes Hwf) as [parameters ->].
    rewrite Hus. cbn. by rewrite He.
Qed.

(** C6 at a concrete batch and a device that raises. *)
Lemma batch_execute_errors_witness :
  batch_execute (CacheEntry:=unit) Examples.two_or_four Examples.first_order
                [Examples.tape_one] Examples.failing_device None None None =
  (map after_scope [Examples.tape_one], Raise (DeviceError 7)).
Proof.
  eapply (proj2 (batch_execute_errors (CacheEntry:=unit) Examples.two_or_four
                   Examples.first_order Examples.failing_device
                   None None None)).
  - constructor; [|constructor]. split.
    + constructor; [by eexists|constructor].
    + intros idx Hidx. simpl in Hidx. apply elem_of_singleton in Hidx.
      subst. simpl. lia.
  - vm_compute. reflexivity.
  - reflexivity.
Defined.

(** C6, counterexample. On the empty batch and a device that answers the
    empty batch with the empty result list, [batch_execute] returns the
    empty result list: it raises nothing. *)
Lemma batch_execute_empty_returns :
  (batch_execute (CacheEntry:=unit) Examples.two_or_four Examples.first_order
                 [] Examples.silent_device None None None).2 = Ok [] ∧
  ¬ ∃ e, (batch_execute (CacheEntry:=unit) Examples.two_or_four
                        Examples.first_order []
                        Examples.silent_device None None None).2 = Raise e.
Proof. split; [reflexivity|]. by intros [e He]. Qed.

(** ** Nuclear repulsion energy *)

Lemma atom_pairs_cons (a : Z * list float) (rest : list (Z * list float)) :
  HartreeFock.atom_pairs (a :: rest) =
  map (pair a) rest ++ HartreeFock.atom_pairs rest.
Proof.
  unfold HartreeFock.atom_pairs. rewrite imap_cons. simpl. reflexivity.
Qed.

Lemma nuclear_from_pairs (atoms : list (Z * list float)) (e : float) :
  HartreeFock.nuclear_from e atoms =
  foldl (λ e pair, (e + HartreeFock.pair_repulsion pair)%float) e
        (HartreeFock.atom_pairs atoms).
Proof.
  revert e. induction atoms as [|[z1 r1] rest IH]; intros e; [reflexivity|].
  rewrite atom_pairs_cons, foldl_app. simpl. rewrite IH. f_equal.
  rewrite foldl_fmap. clear IH. revert e.
  induction rest as [|[z2 r2] rest IH]; intros e; [reflexivity|].
  simpl. apply IH.
Qed.

Lemma atom_pairs_length (atoms : list (Z * list float)) :
  2 * length (HartreeFock.atom_pairs atoms) =
  length atoms * (length atoms - 1).
Proof.
  induction atoms as [|a rest IH]; [reflexivity|].
  rewrite atom_pairs_cons, length_app, length_map. simpl length.
  destruct rest; simpl in *; lia.
Qed.

(** C9. [nuclear_energy] is the sum over the atom pairs of
    [Z_i * Z_j / distance_ij], whatever the number of atoms: one term for
    each atom [i] and each atom [j] after it, added from zero in that order
    in double precision. There are [n * (n - 1) / 2] terms for [n] atoms:
    one for two atoms, three for three atoms. For H-H at bond length 1.0 it
    is exactly 1.0 and for H-F at bond length 2.0 exactly 4.5; for the
    water molecule of the test it is within the tolerance of [np.allclose]
    of the reference value 15.09255. *)
Theorem nuclear_energy_scenarios :
  (∀ charges coordinates,
     HartreeFock.nuclear_energy charges coordinates =
     HartreeFock.pair_sum (zip charges coordinates)) ∧
  (∀ atoms, 2 * length (HartreeFock.atom_pairs atoms) =
            length atoms * (length atoms - 1)) ∧
  (∀ z1 z2 r1 r2,
     HartreeFock.nuclear_energy [z1; z2] [r1; r2] =
     (0 + HartreeFock.float_of_Z (z1 * z2) / HartreeFock.distance r1 r2)%float) ∧
  (∀ z1 z2 z3 r1 r2 r3,
     HartreeFock.nuclear_energy [z1; z2; z3] [r1; r2; r3] =
     (0 + HartreeFock.float_of_Z (z1 * z2) / HartreeFock.distance r1 r2
        + HartreeFock.float_of_Z (z1 * z3) / HartreeFock.distance r1 r3
        + HartreeFock.float_of_Z (z2 * z3) / HartreeFock.distance r2 r3)%float) ∧
  HartreeFock.nuclear_charges HartreeFock.H2_symbols = Some [1; 1]%Z ∧
  HartreeFock.nuclear_energy [1; 1]%Z HartreeFock.H2_geometry = 1%float ∧
  HartreeFock.nuclear_charges HartreeFock.HF_symbols = Some [1; 9]%Z ∧
  HartreeFock.nuclear_energy [1; 9]%Z HartreeFock.HF_geometry = 4.5%float ∧
  HartreeFock.nuclear_charges HartreeFock.H2O_symbols = Some [1; 8; 1]%Z ∧
  HartreeFock.allclose
    (HartreeFock.nuclear_energy [1; 8; 1]%Z HartreeFock.H2O_geometry)
    HartreeFock.H2O_e_ref = true.
Proof.
  split; [|split].
  - intros charges coordinates. apply nuclear_from_pairs.
  - apply atom_pairs_length.
  - repeat split; vm_compute; reflexivity.
Qed.

(** ** The backward pass *)

Section BackwardClaims.

Context {A CacheEntry : Type}.
Context (np_reshape : pyval A → list Z → result (pyval A)).
Context (np_stack : list (pyval A) → result (pyval A)).
Context (np_transpose : pyval A → result (pyval A)).
Context (np_tensordot : pyval A → pyval A → result (pyval A)).
Context (traced_batch_execute :
  list (QuantumTape A) → list CacheEntry → nat → result (list (pyval A))).
Context (tapes : list (QuantumTape A)).
Context (gradient_fn : GradientFn (A:=A)).
Context (cache : list CacheEntry).
Context (_n : nat).

#[local] Abbreviation the_grad_fn :=
  (grad_fn np_reshape np_stack np_transpose np_tensordot traced_batch_execute
           tapes gradient_fn cache _n).
#[local] Abbreviation the_grad_fn_vjp :=
  (grad_fn_vjp np_reshape np_stack np_transpose np_tensordot
               traced_batch_execute tapes gradient_fn cache _n).

(** C3 (as amended). Whatever [dy] and whatever happens later in the
    backward pass, [grad_fn] calls [gradient_fn] exactly once per tape and
    per position [0, ..., k - 1] in the iteration over the tape's trainable
    set of size [k], tape by tape in input order, positions ascending; the
    second argument is that position, not the element of the set. *)
Theorem gradient_fn_called_by_position (dy : list (pyval A)) :
  gradient_calls (the_grad_fn dy).1 = calls_by_position tapes.
Proof.
  rewrite grad_fn_log.
  destruct (grad_fn_vjp_log np_reshape np_stack np_transpose np_tensordot
              traced_batch_execute tapes gradient_fn cache _n dy)
    as (g & rest & -> & Hrest).
  rewrite gradient_calls_app.
  change (gradient_calls (BatchExecuteCall _ _ _ :: rest))
    with (gradient_calls rest).
  rewrite (gradient_calls_postprocess rest Hrest), app_nil_r.
  apply gradient_calls_generated.
Qed.

(** The last line of [grad_fn] on boxed entries. *)
Lemma grad_fn_return_boxes (vjp : list (pyval A)) :
  1 ≤ _n →
  Forall (λ v, is_ArrayBox v = true) vjp →
  grad_fn_return _n vjp =
  Ok (map (λ v, strip_layers (min _n (box_depth v)) v) vjp).
Proof.
  intros Hn. unfold grad_fn_return.
  induction 1 as [|v vjp Hv _ IH]; simpl; [done|].
  apply is_ArrayBox_true in Hv as [v' ->].
  rewrite _unwrap_arraybox_bounded by lia. rewrite IH. simpl.
  by rewrite Nat.sub_0_r.
Qed.

(** C5 (as amended). The nesting depth that [batch_execute] passes on is 1
    when the caller gives none, so that the backward pass of such a call
    invokes [batch_execute] at depth 2; [grad_fn] at depth [_n] invokes
    [batch_execute] exactly once, at depth [_n + 1]; and when [_n] is
    positive and every entry of [vjp] is an [ArrayBox], the entry returned
    for a value under [d] layers is that value with [min _n d] layers
    stripped: [_n] is a bound, reached only when there are that many
    layers. *)
Theorem nesting_depth (expval_grad : GradientFn (A:=A))
    (gradient_fn0 : option GradientFn) (cache0 : option (list CacheEntry))
    (device : Device) (ans : list (pyval A))
    (parameters : list (list (pyval A))) (dy : list (pyval A)) :
  let kw := batch_execute_kwargs expval_grad tapes gradient_fn0 cache0 None in
  kw__n kw = 1 ∧
  batch_execute_depths
    (backward_pass np_reshape np_stack np_transpose np_tensordot
                   traced_batch_execute kw device ans parameters dy).1 = [2] ∧
  batch_execute_depths (the_grad_fn dy).1 = [_n + 1] ∧
  ∀ log vjp,
    1 ≤ _n →
    the_grad_fn_vjp dy = (log, Ok vjp) →
    Forall (λ v, is_ArrayBox v = true) vjp →
    the_grad_fn dy =
      (log, Ok (map (λ v, strip_layers (min _n (box_depth v)) v) vjp)) ∧
    Forall2 (λ v w, box_depth v = min _n (box_depth v) + box_depth w) vjp
            (map (λ v, strip_layers (min _n (box_depth v)) v) vjp).
Proof.
  split; [done|]. split; [|split].
  - unfold backward_pass, vjp. apply batch_execute_depths_grad_fn.
  - apply batch_execute_depths_grad_fn.
  - intros log vjp Hn Hvjp Hboxes. split.
    + unfold grad_fn. rewrite Hvjp. simpl.
      rewrite grad_fn_return_boxes by done. by rewrite app_nil_r.
    + apply Forall2_fmap_r, Forall_Forall2_diag.
      apply Forall_forall. intros v _. unfold compose. cbv beta.
      rewrite box_depth_strip_layers. lia.
Qed.

(** Any list that [grad_fn] returns has one entry per pair of
    [zip(range(len(tapes)), dy)]. *)
Lemma grad_fn_vjp_length (dy : list (pyval A)) log vjp :
  the_grad_fn_vjp dy = (log, Ok vjp) →
  length vjp = min (length tapes) (length dy).
Proof.
  unfold grad_fn_vjp.
  intros (? & g & ? & _ & H & _)%tbind_inv_Ok.
  apply tbind_inv_Ok in H as (? & ? & ? & _ & H & _).
  apply tbind_inv_Ok in H as (? & results & ? & _ & H & _).
  apply tbind_inv_Ok in H as (? & [vjp' start] & ? & Hrows & H & _).
  injection H as _ <-.
  apply rows_append in Hrows as (vs & -> & Hlen). simpl.
  by rewrite Hlen, length_zip_with, length_seq.
Qed.

Lemma grad_fn_return_length (vjp out : list (pyval A)) :
  grad_fn_return _n vjp = Ok out → length out = length vjp.
Proof. apply rmapM_Ok_length. Qed.


End BackwardClaims.

(** C3, counterexample. On a tape whose trainable set is [{0, 2}],
    [gradient_fn] is called with the positions 0 and 1, not with the
    parameter indices 0 and 2 of the set. *)
Lemma gradient_fn_not_called_by_set_element :
  gradient_calls
    (Examples.grad_fn_example [Examples.tape_three] 1 [NDArray [1%Z]]).1
  ≠ calls_by_set_element [Examples.tape_three].
Proof.
  intros H. apply (f_equal (λ calls, list_sum (map snd calls))) in H.
  vm_compute in H. discriminate.
Qed.

(** C5, counterexample. At nesting depth 2, a gradient under a single
    [ArrayBox] layer is returned with that one layer stripped: not exactly
    two layers. *)
Lemma grad_fn_return_strips_fewer_layers :
  grad_fn_return 2 [ArrayBox (NDArray [5%Z])] = Ok [NDArray [5%Z]] ∧
  ¬ strips_exactly 2 (ArrayBox (NDArray [5%Z])) (NDArray [5%Z]).
Proof. split; [reflexivity|]. unfold strips_exactly. simpl. lia. Qed.

(** C5 at a concrete batch of two tapes, at depth 1. *)
Lemma nesting_depth_witness :
  Examples.grad_fn_example [Examples.tape_one; Examples.tape_two] 1
                           Examples.dy2 =
  ((Examples.grad_fn_example [Examples.tape_one; Examples.tape_two] 1
                             Examples.dy2).1,
   Ok [NDArray [1%Z]; NDArray [5%Z]]).
Proof.
  refine (proj1 (proj2 (proj2 (proj2
    (nesting_depth Examples.np_reshape Examples.np_stack Examples.np_transpose
       Examples.np_tensordot Examples.numbered_results
       [Examples.tape_one; Examples.tape_two] Examples.two_or_four [] 1
       Examples.two_or_four None None Examples.silent_device [] []
       Examples.dy2)))
    _ [ArrayBox (NDArray [1%Z]); ArrayBox (NDArray [5%Z])] _ _ _)).
  - lia.
  - vm_compute. reflexivity.
  - repeat constructor.
Defined.

(** C4, the code at the failing input. A batch of one tape without
    trainable parameter, one row of upstream gradient, nesting depth 1:
    the loop appends [None] to [vjp], and the last line of [grad_fn] reads
    [None._value], which raises [AttributeError]. The list with the
    sentinel is never returned. *)
Theorem grad_fn_raises_on_untrainable_tape :
  (grad_fn_vjp Examples.np_reshape Examples.np_stack Examples.np_transpose
     Examples.np_tensordot Examples.numbered_results
     [Examples.tape_none] Examples.two_or_four [] 1 [NDArray [1%Z]]).2 =
    Ok [PyNone] ∧
  grad_fn_return (A:=Examples.arr) 1 [PyNone] = Raise AttributeError ∧
  (Examples.grad_fn_example [Examples.tape_none] 1 [NDArray [1%Z]]).2 =
    Raise AttributeError ∧
  (Examples.grad_fn_example [Examples.tape_one; Examples.tape_none] 1
                            Examples.dy2).2 = Raise AttributeError.
Proof. repeat split; vm_compute; reflexivity. Qed.

(** C2, the code at the failing input. Two tapes with one trainable
    parameter each; the gradient transform generates two shifted tapes for
    the first and four for the second, so that [reshape_info] is [[2, 4]]
    and the results of the second tape's shifted tapes are
    [results[2:6]]. The post-processing function of the second tape is
    applied to [results[2:4]]: the inner loop pairs the tape's functions
    with [reshape_info] from its beginning. *)
Theorem grad_fn_slices_second_tape :
  let results := map (λ i, ArrayBox (NDArray [Z.of_nat i])) (seq 0 6) in
  let run := Examples.grad_fn_example [Examples.tape_one; Examples.tape_two] 1
                                      Examples.dy2 in
  (let? g := (generate (CacheEntry:=unit)
                [Examples.tape_one; Examples.tape_two]
                Examples.two_or_four).2 in
   Ok (reshape_info g, length (gradient_tapes g))) = Ok ([2; 4], 6) ∧
  Examples.numbered_results (replicate 6 Examples.tape_one) [] 2 = Ok results ∧
  postprocess_slices run.1 = [take 2 results; take 2 (drop 2 results)] ∧
  consecutive_slices [2; 4] results = [take 2 results; take 4 (drop 2 results)] ∧
  postprocess_slices run.1 ≠ consecutive_slices [2; 4] results ∧
  run.2 = Ok [NDArray [1%Z]; NDArray [5%Z]].
Proof.
  repeat split; try (vm_compute; reflexivity).
  intros H. vm_compute in H. discriminate.
Qed.

(** ** Further properties of the two passes *)

Section Further.

Context {A CacheEntry : Type}.

(** What the inner loop of a row consumes, for any tape: consecutive slices
    from [start] on, whose lengths are the leading entries of
    [reshape_info], one per post-processing function of the tape. *)
Lemma columns_consume_leading_counts (results : list (pyval A))
    (fns : list Postprocess) (lens : list nat) jac start :
  let slices := consecutive_slices lens (drop start results) in
  tfoldl (column (CacheEntry:=CacheEntry) results) (jac, start) (zip fns lens) =
  (zip_with PostprocessCall fns slices,
   Ok (jac ++ zip_with (λ fn res, fn res) fns slices,
       start + sum_list (take (length fns) lens))).
Proof.
  revert lens jac start.
  induction fns as [|fn fns IH]; intros lens jac start; simpl.
  { by rewrite app_nil_r, Nat.add_0_r. }
  destruct lens as [|res_len lens]; simpl.
  { by rewrite app_nil_r, Nat.add_0_r. }
  rewrite IH. simpl. rewrite drop_drop, <-app_assoc. simpl.
  do 3 f_equal. lia.
Qed.

(** The only exception of the last line of [grad_fn] is the
    [AttributeError] of an entry that is not an [ArrayBox]. *)
Lemma _unwrap_arraybox_Raise (v : pyval A) max_depth k e :
  _unwrap_arraybox v max_depth k = Raise e → e = AttributeError.
Proof.
  revert k. induction v as [| | |v IH]; intros k; simpl;
    destruct max_depth as [m|]; try destruct (Nat.eqb k m); try congruence.
  - destruct (is_ArrayBox v); [apply IH|done].
  - destruct (is_ArrayBox v); [apply IH|done].
Qed.

(** Whenever the list [vjp] holds the [None] of a tape without trainable
    parameter, [grad_fn] at a positive nesting depth raises
    [AttributeError]. *)
Lemma grad_fn_return_None (vjp : list (pyval A)) (_n : nat) :
  1 ≤ _n → PyNone ∈ vjp → grad_fn_return _n vjp = Raise AttributeError.
Proof.
  intros Hn. unfold grad_fn_return.
  induction vjp as [|v vjp IH]; intros Hin; [by apply elem_of_nil in Hin|].
  simpl. destruct (_unwrap_arraybox v (Some _n) 0) as [w|e] eqn:Hv; simpl.
  - apply elem_of_cons in Hin as [<-|Hin].
    + simpl in Hv. destruct _n; [lia|done].
    + by rewrite IH.
  - by apply _unwrap_arraybox_Raise in Hv as ->.
Qed.

(** The trainable set that [get_trainable_params] computes lies within the
    parameter indices. *)
Lemma classify_bound (params : list (pyval A)) idx :
  idx ∈ classify params → idx < length params.
Proof.
  unfold classify, enumerate.
  assert (∀ k (X : gset nat),
    idx ∈ foldl (λ (trainable_params : gset nat) '(idx, p),
                   if getattr_requires_grad p || is_ArrayBox p
                   then trainable_params ∪ {[idx]}
                   else trainable_params)
                X (zip (seq k (length params)) params) →
    idx ∈ X ∨ (k ≤ idx < k + length params)) as Hgen.
  { induction params as [|p params IH]; intros k X; simpl; [by left|].
    intros [Hin|Hin]%IH; [|right; lia].
    destruct (_ || _); [|by left].
    apply elem_of_union in Hin as [Hin|Hin]; [by left|].
    apply elem_of_singleton in Hin. right. lia. }
  intros [Hin|Hin]%Hgen; [by apply not_elem_of_empty in Hin|lia].
Qed.

Lemma after_scope_same_parameters (t : QuantumTape A) :
  same_parameters t (after_scope t).
Proof.
  unfold after_scope, same_parameters.
  by destruct (get_trainable_params t) as [[trainable original]|e].
Qed.

Lemma after_scope_idemp (t : QuantumTape A) :
  after_scope (after_scope t) = after_scope t.
Proof.
  unfold after_scope at 2 3.
  destruct (get_trainable_params t) as [[trainable original]|e] eqn:Hget.
  - unfold after_scope.
    change (get_trainable_params
              {| operations := operations t; _par_info := _par_info t;
                 trainable_params := trainable |})
      with (get_trainable_params t).
    by rewrite Hget.
  - unfold after_scope. by rewrite Hget.
Qed.

Lemma after_scope_wf (t : QuantumTape A) : tape_wf t → tape_wf (after_scope t).
Proof.
  intros [Hread Htrain]. unfold after_scope.
  destruct (get_trainable_params t) as [[trainable original]|e] eqn:Hget;
    [|done].
  split; [done|]. simpl. intros idx Hidx.
  unfold get_trainable_params in Hget.
  destruct (rmapM (read_par t) (_par_info t)) as [params|] eqn:Hp;
    simpl in Hget; [|done].
  injection Hget as <- <-.
  apply classify_bound in Hidx. by rewrite (rmapM_Ok_length _ _ _ Hp) in Hidx.
Qed.

Lemma unwrapped_wf (t : QuantumTape A) : tape_wf t → ∃ u, unwrapped t = Ok u.
Proof.
  intros [Hread _].
  destruct (rmapM_total (read_par t) (_par_info t)) as [params Hp].
  { eapply Forall_impl; [exact Hread|]. intros pi [p Hpi].
    exists p. unfold read_par. by rewrite Hpi. }
  eapply (unwrapped_Ok t (classify params) params).
  unfold get_trainable_params. by rewrite Hp.
Qed.

(** X17. Calling [batch_execute] a second time, on the tapes as the first
    call left them, leaves the tapes as the first call left them, with the
    operations, parameter values and parameter layout of the given tapes.
    Both calls hand the device the same unwrapped tapes; each returns the
    device's answer as the primitive returns it for the parameters at the
    trainable positions that the call reads, so the two results differ in
    boxing at most. *)
Lemma batch_execute_repeatable (expval_grad : GradientFn (A:=A))
    (outer_traces : list (list (pyval A)) → nat)
    (device : Device) (tapes : list (QuantumTape A))
    (gradient_fn : option GradientFn) (cache : option (list CacheEntry))
    (_n : option nat) :
  Forall tape_wf tapes →
  let first := batch_execute expval_grad outer_traces tapes device
                             gradient_fn cache _n in
  let second := batch_execute expval_grad outer_traces first.1 device
                              gradient_fn cache _n in
  second.1 = first.1 ∧
  Forall2 same_parameters tapes first.1 ∧
  ∃ parameters1 parameters2 us,
    rmapM (get_parameters true) tapes = Ok parameters1 ∧
    rmapM (get_parameters true) first.1 = Ok parameters2 ∧
    rmapM unwrapped tapes = Ok us ∧
    rmapM unwrapped first.1 = Ok us ∧
    first.2 = (let? ans := device us in
               Ok (primitive_answer outer_traces parameters1 ans)) ∧
    second.2 = (let? ans := device us in
                Ok (primitive_answer outer_traces parameters2 ans)).
Proof.
  intros Hwf first second.
  assert (first.1 = map after_scope tapes) as Hfirst.
  { unfold first. by apply batch_execute_tapes. }
  assert (Forall tape_wf (map after_scope tapes)) as Hwf'.
  { apply Forall_fmap. eapply Forall_impl; [exact Hwf|].
    intros t. apply after_scope_wf. }
  assert (Forall2 same_parameters tapes (map after_scope tapes)) as Hsame.
  { apply Forall2_fmap_r, Forall_Forall2_diag, Forall_forall.
    intros t _. apply after_scope_same_parameters. }
  destruct (rmapM_get_parameters_wf tapes Hwf) as [parameters1 Hp1].
  destruct (rmapM_get_parameters_wf _ Hwf') as [parameters2 Hp2].
  destruct (rmapM_total unwrapped tapes) as [us Hus].
  { eapply Forall_impl; [exact Hwf|]. apply unwrapped_wf. }
  assert (rmapM unwrapped (map after_scope tapes) = Ok us) as Hus'.
  { by rewrite <-(rmapM_unwrapped_same_parameters _ _ Hsame). }
  split; [|split].
  - unfold second. rewrite Hfirst.
    rewrite batch_execute_tapes by done.
    rewrite <-list_fmap_compose. apply list_fmap_ext. intros _ t _.
    apply after_scope_idemp.
  - by rewrite Hfirst.
  - exists parameters1, parameters2, us. rewrite Hfirst.
    repeat split; try done.
    + unfold first. rewrite batch_execute_outcome, Hp1. cbn.
      by rewrite Hus.
    + unfold second. rewrite Hfirst, batch_execute_outcome, Hp2. cbn.
      by rewrite Hus'.
Qed.

End Further.

(** * Properties beyond the claims *)

(** ** Classification and unwrapping of values *)

Section ValueProperties.

Context {A : Type}.
Implicit Types (v w : pyval A) (t : QuantumTape A).

Lemma elem_of_classify (params : list (pyval A)) idx :
  idx ∈ classify params ↔
  ∃ p, params !! idx = Some p ∧ is_trainable p = true.
Proof.
  unfold classify, enumerate, is_trainable.
  assert (∀ k (X : gset nat),
    idx ∈ foldl (λ (trainable_params : gset nat) '(idx, p),
                   if getattr_requires_grad p || is_ArrayBox p
                   then trainable_params ∪ {[idx]}
                   else trainable_params)
                X (zip (seq k (length params)) params) ↔
    idx ∈ X ∨ (k ≤ idx ∧ ∃ p, params !! (idx - k) = Some p ∧
                 getattr_requires_grad p || is_ArrayBox p = true)) as Hgen.
  { induction params as [|p params IH]; intros k X; simpl.
    { split; [by left|]. by intros [?|(_ & ? & ? & _)]. }
    rewrite IH. split.
    - intros [Hin|(Hk & q & Hq & Hq')].
      + destruct (_ || _) eqn:Hp; [|by left].
        apply elem_of_union in Hin as [Hin|Hin]; [by left|].
        apply elem_of_singleton in Hin as ->. right. split; [lia|].
        exists p. by rewrite Nat.sub_diag.
      + right. split; [lia|]. exists q.
        replace (idx - k) with (S (idx - S k)) by lia. done.
    - intros [Hin|(Hk & q & Hq & Hq')].
      + left. destruct (_ || _); [|done]. apply elem_of_union. by left.
      + destruct (decide (idx = k)) as [->|Hne].
        * rewrite Nat.sub_diag in Hq. injection Hq as ->. rewrite Hq'.
          left. apply elem_of_union. right. by apply elem_of_singleton.
        * right. split; [lia|]. exists q.
          replace (idx - k) with (S (idx - S k)) in Hq by lia. done. }
  rewrite Hgen, Nat.sub_0_r. split.
  - intros [Hin|(_ & H)]; [by apply not_elem_of_empty in Hin|done].
  - intros H. right. split; [lia|done].
Qed.

(** X1. When [get_trainable_params] returns, the list it returns holds the
    parameter of every [_par_info] entry, in the order of [_par_info], and
    the set it returns holds exactly the positions of the parameters that
    have a true [requires_grad] or are [ArrayBox]es; the trainable set that
    the tape had does not enter. *)
Theorem get_trainable_params_spec t trainable (params : list (pyval A)) :
  get_trainable_params t = Ok (trainable, params) →
  length params = length (_par_info t) ∧
  (∀ i pi, _par_info t !! i = Some pi →
           params !! i = read_loc (operations t) pi) ∧
  (∀ idx, idx ∈ trainable ↔
          ∃ p, params !! idx = Some p ∧ is_trainable p = true) ∧
  (∀ idx, idx ∈ trainable → idx < length (_par_info t)).
Proof.
  unfold get_trainable_params.
  destruct (rmapM (read_par t) (_par_info t)) as [ps|] eqn:Hread; [|done].
  simpl. intros [= <- <-].
  pose proof (rmapM_Ok_length _ _ _ Hread) as Hlen.
  split; [done|]. split; [|split].
  - apply read_all_Forall2 in Hread. intros i pi Hpi.
    destruct (Forall2_lookup_l _ _ _ _ _ Hread Hpi) as (p & Hp & Hloc).
    by rewrite Hp, Hloc.
  - apply elem_of_classify.
  - intros idx (p & Hp & _)%elem_of_classify.
    rewrite <-Hlen. by eapply lookup_lt_Some.
Qed.

Lemma innermost_not_box v : is_ArrayBox (innermost v) = false.
Proof. unfold innermost. induction v; simpl; done. Qed.

Lemma _unwrap_arraybox_past_bound v (max_depth : option nat) k :
  (∀ m, max_depth = Some m → m < k) →
  _unwrap_arraybox (ArrayBox v) max_depth k = Ok (innermost v).
Proof.
  revert k. induction v as [| | |v IH]; intros k Hk.
  - simpl. destruct max_depth as [m|]; [|done].
    specialize (Hk m eq_refl). destruct (Nat.eqb_spec k m); [lia|done].
  - simpl. destruct max_depth as [m|]; [|done].
    specialize (Hk m eq_refl). destruct (Nat.eqb_spec k m); [lia|done].
  - simpl. destruct max_depth as [m|]; [|done].
    specialize (Hk m eq_refl). destruct (Nat.eqb_spec k m); [lia|done].
  - change (_unwrap_arraybox (ArrayBox (ArrayBox v)) max_depth k)
      with (if match max_depth with
               | Some m => Nat.eqb k m
               | None => false
               end
            then Ok (ArrayBox (ArrayBox v))
            else _unwrap_arraybox (ArrayBox v) max_depth (S k)).
    rewrite IH.
    + destruct max_depth as [m|]; [|done].
      specialize (Hk m eq_refl). destruct (Nat.eqb_spec k m); [lia|done].
    + intros m Hm. specialize (Hk m Hm). lia.
Qed.

(** X2. Without a depth bound, or with a counter that is already past the
    bound (the bound is tested by equality), [_unwrap_arraybox] takes an
    [ArrayBox] down to its innermost value, which is not an [ArrayBox]; it
    does not raise. *)
Theorem _unwrap_arraybox_innermost v (max_depth : option nat) k :
  (∀ m, max_depth = Some m → m < k) →
  _unwrap_arraybox (ArrayBox v) max_depth k = Ok (innermost (ArrayBox v)) ∧
  is_ArrayBox (innermost (ArrayBox v)) = false ∧
  box_depth (innermost (ArrayBox v)) = 0.
Proof.
  intros Hk. split; [|split].
  - exact (_unwrap_arraybox_past_bound v max_depth k Hk).
  - apply innermost_not_box.
  - pose proof (innermost_not_box (ArrayBox v)) as H.
    by destruct (innermost (ArrayBox v)).
Qed.

(** X3. [_unwrap_arraybox] raises exactly when it is handed a value that
    is not an [ArrayBox] while the counter differs from the bound, and then
    it raises [AttributeError]; when the counter equals the bound it returns
    its argument, whatever that is. *)
Theorem _unwrap_arraybox_raises v (max_depth : option nat) k :
  (max_depth = Some k → _unwrap_arraybox v max_depth k = Ok v) ∧
  ∀ e, _unwrap_arraybox v max_depth k = Raise e ↔
       e = AttributeError ∧ is_ArrayBox v = false ∧ max_depth ≠ Some k.
Proof.
  split.
  { intros ->. destruct v; simpl; by rewrite Nat.eqb_refl. }
  intros e. split.
  - intros H. pose proof (_unwrap_arraybox_Raise _ _ _ _ H) as ->.
    split; [done|].
    assert (max_depth ≠ Some k) as Hne.
    { intros ->. destruct v; simpl in H; by rewrite Nat.eqb_refl in H. }
    split; [|done].
    destruct v as [| | |v']; try done.
    exfalso. revert k H Hne. induction v' as [| | |v' IH]; intros k H Hne.
    + simpl in H. destruct max_depth as [m|]; [|done]. by destruct (Nat.eqb k m).
    + simpl in H. destruct max_depth as [m|]; [|done]. by destruct (Nat.eqb k m).
    + simpl in H. destruct max_depth as [m|]; [|done]. by destruct (Nat.eqb k m).
    + change (_unwrap_arraybox (ArrayBox (ArrayBox v')) max_depth k)
        with (if match max_depth with
                 | Some m => Nat.eqb k m
                 | None => false
                 end
              then Ok (ArrayBox (ArrayBox v'))
              else _unwrap_arraybox (ArrayBox v') max_depth (S k)) in H.
      destruct (match max_depth with
                | Some m => Nat.eqb k m
                | None => false
                end) eqn:Hb; [done|].
      destruct (decide (max_depth = Some (S k))) as [->|Hne'].
      * simpl in H. by rewrite Nat.eqb_refl in H.
      * by apply (IH (S k)).
  - intros (-> & Hv & Hne).
    assert (match max_depth with
            | Some m => Nat.eqb k m
            | None => false
            end = false) as Hb.
    { destruct max_depth as [m|]; [|done].
      destruct (Nat.eqb_spec k m); [congruence|done]. }
    destruct v; try done; simpl; by rewrite Hb.
Qed.

Lemma convert_one_not_box v w : convert_one v = Ok w → is_ArrayBox w = false.
Proof.
  destruct v as [|a|a rg|v']; try (simpl; by intros [= <-]).
  unfold convert_one.
  rewrite (_unwrap_arraybox_past_bound v' None 0) by done.
  intros [= <-]. apply innermost_not_box.
Qed.

(** X4. [convert_to_numpy] never raises. Its outcome has the length of its
    argument and holds no [ArrayBox]; position by position, a tensor gives
    its array, an [ArrayBox] its innermost value (a tensor when a tensor
    was boxed), and any other value is passed through. *)
Theorem convert_to_numpy_spec (tensors : list (pyval A)) :
  ∃ unwrapped_tensors,
    convert_to_numpy tensors = Ok unwrapped_tensors ∧
    length unwrapped_tensors = length tensors ∧
    Forall (λ w, is_ArrayBox w = false) unwrapped_tensors ∧
    ∀ i v, tensors !! i = Some v →
      unwrapped_tensors !! i =
      Some match v with
           | Tensor a _ => NDArray a
           | ArrayBox _ => innermost v
           | _ => v
           end.
Proof.
  destruct (convert_to_numpy_total tensors) as (out & Hout & Hlen).
  exists out. split; [done|]. split; [done|].
  apply rmapM_Ok_Forall2 in Hout. split.
  - eapply Forall2_Forall_r; [exact Hout|].
    apply Forall_forall. intros v _ w. apply convert_one_not_box.
  - intros i v Hv.
    destruct (Forall2_lookup_l _ _ _ _ _ Hout Hv) as (w & Hw & Hconv).
    rewrite Hw. f_equal.
    destruct v as [|a|a rg|v']; try (simpl in Hconv; by injection Hconv).
    unfold convert_one in Hconv.
    rewrite (_unwrap_arraybox_past_bound v' None 0) in Hconv by done.
    by injection Hconv.
Qed.

End ValueProperties.

Lemma get_trainable_params_spec_witness :
  length Examples.doc_params = length (_par_info Examples.doc_tape) ∧
  (∀ i pi, _par_info Examples.doc_tape !! i = Some pi →
           Examples.doc_params !! i =
           read_loc (operations Examples.doc_tape) pi) ∧
  (∀ idx, idx ∈ ({[0; 2]} : gset nat) ↔
          ∃ p, Examples.doc_params !! idx = Some p ∧ is_trainable p = true) ∧
  (∀ idx, idx ∈ ({[0; 2]} : gset nat) →
          idx < length (_par_info Examples.doc_tape)).
Proof.
  apply (get_trainable_params_spec Examples.doc_tape).
  vm_compute. reflexivity.
Defined.

Lemma _unwrap_arraybox_innermost_witness :
  _unwrap_arraybox (ArrayBox (ArrayBox (Tensor 5%Z true))) (Some 1) 2 =
    Ok (innermost (ArrayBox (ArrayBox (Tensor 5%Z true)))) ∧
  is_ArrayBox (innermost (ArrayBox (ArrayBox (Tensor 5%Z true)))) = false ∧
  box_depth (innermost (ArrayBox (ArrayBox (Tensor 5%Z true)))) = 0.
Proof.
  apply _unwrap_arraybox_innermost. intros m [= <-]. lia.
Defined.

(** ** The scope and the forward pass *)

Section ScopeProperties.

Context {A : Type}.
Implicit Types (t u : QuantumTape A) (ops : list (Operator A)).

Lemma write_all_inv (pis : list ParInfo) (vals : list (pyval A)) ops ops' :
  write_all (zip pis vals) ops = (ops', Ok ()) →
  shape ops' = shape ops ∧
  ∀ pi, pi ∉ pis → read_loc ops' pi = read_loc ops pi.
Proof.
  revert vals ops. induction pis as [|pi0 pis IH]; intros vals ops; simpl.
  { by intros [= <-]. }
  destruct vals as [|v vals]; simpl; [by intros [= <-]|].
  destruct (write_loc ops pi0 v) as [ops1|] eqn:Hw; [|done].
  intros (Hs & Hoff)%IH. split.
  - rewrite Hs. by eapply write_loc_shape.
  - intros pi [Hne Hnot]%not_elem_of_cons.
    rewrite Hoff by done. by eapply read_write_ne.
Qed.

(** After writing, position by position, values that depend on the
    position only, every written position holds its value. *)
Lemma write_all_map_read (g : ParInfo → pyval A) (pis : list ParInfo) ops ops' :
  write_all (zip pis (map g pis)) ops = (ops', Ok ()) →
  ∀ pi, pi ∈ pis → read_loc ops' pi = Some (g pi).
Proof.
  revert ops. induction pis as [|pi0 pis IH]; intros ops; simpl.
  { intros _ pi Hpi. by apply elem_of_nil in Hpi. }
  destruct (write_loc ops pi0 (g pi0)) as [ops1|] eqn:Hw; [|done].
  intros Hrest pi Hpi.
  destruct (decide (pi ∈ pis)) as [Hin|Hnot]; [by eapply IH|].
  apply elem_of_cons in Hpi as [->|Hpi]; [|done].
  apply write_all_inv in Hrest as [_ Hoff].
  rewrite Hoff by done. by eapply read_write_eq.
Qed.

Lemma converted_by_position ops (pis : list ParInfo)
    (params unwrapped_params : list (pyval A)) :
  Forall2 (λ pi v, read_loc ops pi = Some v) pis params →
  Forall2 (λ v w, convert_one v = Ok w) params unwrapped_params →
  unwrapped_params =
  map (λ pi, match read_loc ops pi with
             | Some p => match convert_one p with
                         | Ok w => w
                         | Raise _ => PyNone
                         end
             | None => PyNone
             end) pis.
Proof.
  intros Hread. revert unwrapped_params.
  induction Hread as [|pi v pis params Hv _ IH]; intros unwrapped_params.
  - by inversion 1.
  - inversion 1 as [|? w ? ws Hw Hws]; subst. simpl.
    rewrite Hv, Hw. f_equal. by apply IH.
Qed.

(** X5. Inside the scope, the tape that [__enter__] returns has the
    parameter layout of the original, the trainable set that
    [get_trainable_params] computed, and at every parameter position,
    trainable or not, the converted value of the original parameter. *)
Theorem UnwrapTape_enter_parameters t trainable (original : list (pyval A)) :
  get_trainable_params t = Ok (trainable, original) →
  ∃ u, unwrapped t = Ok u ∧
       _par_info u = _par_info t ∧
       trainable_params u = trainable ∧
       shape (operations u) = shape (operations t) ∧
       get_parameters false u = convert_to_numpy original.
Proof.
  intros Hget. unfold unwrapped, UnwrapTape__enter__. simpl. rewrite Hget.
  unfold get_trainable_params in Hget.
  destruct (rmapM (read_par t) (_par_info t)) as [params|] eqn:Hread;
    simpl in Hget; [|done].
  injection Hget as <- <-.
  destruct (convert_to_numpy_total params) as (unwrapped_params & Hconv & Hlen).
  pose proof (rmapM_Ok_length _ _ _ Hread) as Hlen'.
  apply read_all_Forall2 in Hread.
  destruct (write_all_Ok (_par_info t) unwrapped_params (operations t))
    as (ops_u & Hw & Hs & Hoff).
  { congruence. }
  { eapply Forall2_Forall_l; [exact Hread|].
    apply Forall_forall. intros v _ pi Hpi. by eexists. }
  rewrite Hconv. unfold set_parameters. simpl.
  rewrite decide_True by congruence. rewrite Hw. simpl.
  eexists. split; [done|]. simpl. split; [done|]. split; [done|].
  split; [done|].
  unfold convert_to_numpy in Hconv. apply rmapM_Ok_Forall2 in Hconv.
  pose proof (converted_by_position _ _ _ _ Hread Hconv) as Hmap.
  rewrite Hmap in Hw |- *.
  apply rmapM_Ok_Forall2, Forall2_fmap_r, Forall_Forall2_diag, Forall_forall.
  intros pi Hpi. unfold compose, read_par. simpl.
  by rewrite (write_all_map_read _ _ _ _ Hw pi Hpi).
Qed.

(** X6. The scoped unwrapping does not swallow exceptions: the outcome of
    the statement is the outcome of the block on the unwrapped tape. When
    [__enter__] raises (a parameter cannot be read), the block is not run
    and the tape is left exactly as it was, trainable set included. *)
Theorem with_UnwrapTape_outcome {R : Type} t (body : QuantumTape A → result R) :
  (with_UnwrapTape t body).2 = (let? u := unwrapped t in body u) ∧
  (∀ e, get_trainable_params t = Raise e →
        with_UnwrapTape t body = (t, Raise e)) ∧
  (∀ u e, unwrapped t = Ok u → body u = Raise e →
          (with_UnwrapTape t body).2 = Raise e ∧
          operations (with_UnwrapTape t body).1 = operations t).
Proof.
  rewrite with_UnwrapTape_spec. split; [done|]. split.
  - intros e He. unfold after_scope. by rewrite He, (unwrapped_Raise _ _ He).
  - intros u e Hu Hb. cbn [fst snd]. rewrite Hu. simpl. rewrite Hb.
    split; [done|]. unfold after_scope.
    by destruct (get_trainable_params t) as [[??]|?].
Qed.

(** X7. [__exit__] overrides what the block wrote: when the block leaves
    the parameter layout and the lengths of the [data] lists of the tape as
    they were, and changes values at parameter positions only, the
    operations are put back exactly as before the scope, and the trainable
    set is the one the block left. When the block changes the number of
    parameters, [__exit__] raises [ValueError] and that exception replaces
    the outcome of the block. *)
Theorem with_UnwrapTape_mutating_restores {R : Type} t trainable original u
    (body : QuantumTape A → QuantumTape A * result R) :
  get_trainable_params t = Ok (trainable, original) →
  unwrapped t = Ok u →
  (_par_info (body u).1 = _par_info t →
   shape (operations (body u).1) = shape (operations t) →
   (∀ pi, pi ∉ _par_info t →
          read_loc (operations (body u).1) pi = read_loc (operations t) pi) →
   with_UnwrapTape_mutating t body =
   ({| operations := operations t; _par_info := _par_info t;
       trainable_params := trainable_params (body u).1 |}, (body u).2)) ∧
  (length (_par_info (body u).1) ≠ length (_par_info t) →
   with_UnwrapTape_mutating t body = ((body u).1, Raise ValueError)).
Proof.
  intros Hget Hu.
  destruct (enter_Ok _ _ _ Hget)
    as (unwrapped_params & ops_u & _ & Henter & _ & _).
  unfold unwrapped in Hu. rewrite Henter in Hu. simpl in Hu.
  injection Hu as <-.
  unfold with_UnwrapTape_mutating. rewrite Henter.
  destruct (body _) as [[ops_a pis_a T_a] out]. simpl.
  unfold get_trainable_params in Hget.
  destruct (rmapM (read_par t) (_par_info t)) as [params|] eqn:Hread;
    simpl in Hget; [|done].
  injection Hget as <- <-.
  pose proof (rmapM_Ok_length _ _ _ Hread) as Hlen.
  split.
  - intros -> Hs Hoff.
    rewrite (exit_after_enter t params _ ops_a T_a Hread Hs Hoff). simpl.
    by destruct out.
  - intros Hne. unfold UnwrapTape__exit__, set_parameters. simpl.
    rewrite decide_False by congruence. done.
Qed.

End ScopeProperties.

Lemma UnwrapTape_enter_parameters_witness :
  ∃ u, unwrapped Examples.doc_tape = Ok u ∧
       _par_info u = _par_info Examples.doc_tape ∧
       trainable_params u = {[0; 2]} ∧
       shape (operations u) = shape (operations Examples.doc_tape) ∧
       get_parameters false u = convert_to_numpy Examples.doc_params.
Proof.
  apply UnwrapTape_enter_parameters. vm_compute. reflexivity.
Defined.

Lemma with_UnwrapTape_mutating_restores_witness :
  with_UnwrapTape_mutating Examples.tape_one Examples.overwriting_block =
  ({| operations := operations Examples.tape_one;
      _par_info := _par_info Examples.tape_one;
      trainable_params := ∅ |}, Ok ()).
Proof.
  refine (proj1 (with_UnwrapTape_mutating_restores Examples.tape_one
            {[0]} [ArrayBox (Tensor [1%Z] true)]
            {| operations := [ {| data := [Tensor [1%Z] true] |} ];
               _par_info := _par_info Examples.tape_one;
               trainable_params := {[0]} |}
            Examples.overwriting_block _ _) _ _ _).
  - vm_compute. reflexivity.
  - vm_compute. reflexivity.
  - reflexivity.
  - reflexivity.
  - intros pi Hpi. simpl in Hpi.
    destruct pi as [[|o] [|i]]; try reflexivity.
    exfalso. apply Hpi. apply elem_of_cons. left. reflexivity.
Defined.

Section ForwardProperties.

Context {A CacheEntry : Type}.
Implicit Types (t u : QuantumTape A) (tapes : list (QuantumTape A)).

Lemma same_parameters_refl t : same_parameters t t.
Proof. by split. Qed.

Lemma exit_stack_same_parameters {R : Type} tapes
    (entered : list (QuantumTape A))
    (block : list (QuantumTape A) → result R) :
  Forall2 same_parameters tapes (exit_stack tapes entered block).1.
Proof.
  revert entered. induction tapes as [|t ts IH]; intros entered; simpl.
  { constructor. }
  destruct (get_trainable_params t) as [[trainable original]|e] eqn:Hget.
  - destruct (enter_Ok _ _ _ Hget)
      as (unwrapped_params & ops_u & _ & Henter & Hs & Hoff).
    rewrite Henter.
    specialize (IH (entered ++
      [{| operations := ops_u; _par_info := _par_info t;
          trainable_params := trainable |}])).
    destruct (exit_stack ts _ block) as [ts' out]. simpl in IH.
    unfold get_trainable_params in Hget.
    destruct (rmapM (read_par t) (_par_info t)) as [params|] eqn:Hread;
      simpl in Hget; [|done].
    injection Hget as <- <-.
    rewrite (exit_after_enter t params _ ops_u _ Hread Hs Hoff). simpl.
    constructor; [by split|done].
  - rewrite (enter_Raise _ _ Hget). simpl.
    constructor; [apply same_parameters_refl|].
    apply Forall_Forall2_diag, Forall_forall. intros ? _.
    apply same_parameters_refl.
Qed.

(** X8. Whatever the tapes, the device and the outcome (a result, an
    exception of the device, an exception while reading a tape),
    [batch_execute] leaves every tape with the operations, the parameter
    values and the parameter layout that it had, tape by tape. *)
Theorem batch_execute_keeps_parameters (expval_grad : GradientFn (A:=A))
    (outer_traces : list (list (pyval A)) → nat)
    tapes (device : Device) (gradient_fn : option GradientFn)
    (cache : option (list CacheEntry)) (_n : option nat) :
  Forall2 same_parameters tapes
    (batch_execute expval_grad outer_traces tapes device gradient_fn cache
                   _n).1.
Proof.
  unfold batch_execute, _batch_execute.
  destruct (rmapM (get_parameters true) tapes); simpl.
  - pose proof (exit_stack_same_parameters tapes [] device) as Hsame.
    by destruct (exit_stack tapes [] device).
  - apply Forall_Forall2_diag, Forall_forall. intros ? _.
    apply same_parameters_refl.
Qed.

(** X9. On tapes that satisfy the invariant of the data model,
    [batch_execute] hands the device one unwrapped tape per tape, in tape
    order, and leaves every tape with its trainable set replaced by the
    classification of its parameters. It raises what the device raises,
    and returns what the device returns as the primitive returns it:
    boxed when a parameter at a trainable position is an [ArrayBox], as it
    is otherwise. *)
Theorem batch_execute_spec (expval_grad : GradientFn (A:=A))
    (outer_traces : list (list (pyval A)) → nat)
    tapes (device : Device) (gradient_fn : option GradientFn)
    (cache : option (list CacheEntry)) (_n : option nat) :
  Forall tape_wf tapes →
  ∃ parameters us,
    rmapM (get_parameters true) tapes = Ok parameters ∧
    Forall2 (λ t u, unwrapped t = Ok u) tapes us ∧
    batch_execute expval_grad outer_traces tapes device gradient_fn cache _n =
    (map after_scope tapes,
     match device us with
     | Ok ans => Ok (if has_box parameters
                     then map (new_box (S (outer_traces parameters))) ans
                     else ans)
     | Raise e => Raise e
     end).
Proof.
  intros Hwf.
  destruct (rmapM_get_parameters_wf tapes Hwf) as [parameters Hp].
  destruct (rmapM_total unwrapped tapes) as [us Hus].
  { eapply Forall_impl; [exact Hwf|]. apply unwrapped_wf. }
  exists parameters, us. split; [done|].
  split; [by apply rmapM_Ok_Forall2|].
  apply injective_projections.
  - by apply batch_execute_tapes.
  - rewrite (batch_execute_outcome (CacheEntry:=CacheEntry)), Hp. cbn.
    by rewrite Hus.
Qed.

End ForwardProperties.

Lemma tape_one_wf : tape_wf Examples.tape_one.
Proof.
  split.
  - constructor; [by eexists|constructor].
  - intros idx Hidx. simpl in Hidx. apply elem_of_singleton in Hidx.
    subst. simpl. lia.
Defined.

Lemma batch_execute_spec_witness :
  ∃ parameters us,
    rmapM (get_parameters true) [Examples.tape_one] = Ok parameters ∧
    Forall2 (λ t u, unwrapped t = Ok u) [Examples.tape_one] us ∧
    batch_execute (CacheEntry:=unit) Examples.two_or_four Examples.first_order
      [Examples.tape_one] Examples.summing_device None None None =
    (map after_scope [Examples.tape_one],
     match Examples.summing_device us with
     | Ok ans => Ok (if has_box parameters
                     then map (new_box (S (Examples.first_order parameters)))
                              ans
                     else ans)
     | Raise e => Raise e
     end).
Proof.
  apply batch_execute_spec. constructor; [apply tape_one_wf|constructor].
Defined.

Lemma batch_execute_repeatable_witness :
  let first := batch_execute (CacheEntry:=unit) Examples.two_or_four
                 Examples.first_order [Examples.tape_one]
                 Examples.summing_device None None None in
  let second := batch_execute (CacheEntry:=unit) Examples.two_or_four
                  Examples.first_order first.1
                  Examples.summing_device None None None in
  second.1 = first.1 ∧
  Forall2 same_parameters [Examples.tape_one] first.1 ∧
  ∃ parameters1 parameters2 us,
    rmapM (get_parameters true) [Examples.tape_one] = Ok parameters1 ∧
    rmapM (get_parameters true) first.1 = Ok parameters2 ∧
    rmapM unwrapped [Examples.tape_one] = Ok us ∧
    rmapM unwrapped first.1 = Ok us ∧
    first.2 = (let? ans := Examples.summing_device us in
               Ok (primitive_answer Examples.first_order parameters1 ans)) ∧
    second.2 = (let? ans := Examples.summing_device us in
                Ok (primitive_answer Examples.first_order parameters2 ans)).
Proof.
  apply batch_execute_repeatable.
  constructor; [apply tape_one_wf|constructor].
Defined.

(** ** The backward pass *)

Section GenerateProperties.

Context {A CacheEntry : Type}.
Context (gradient_fn : GradientFn (A:=A)).

Lemma append_last_snoc {T : Type} (xss : list (list T)) (xs : list T) (x : T) :
  append_last (xss ++ [xs]) x = xss ++ [xs ++ [x]].
Proof.
  unfold append_last. rewrite length_app. simpl.
  replace (pred (length xss + 1)) with (length xss + 0) by lia.
  by rewrite alter_app_r.
Qed.

Lemma generate_params_closed (t : QuantumTape A) (l : list nat) :
  ∀ k (st : generated A) pf cur,
    processing_fns st = pf ++ [cur] →
    (tfoldl (generate_param (CacheEntry:=CacheEntry) gradient_fn t) st
            (zip (seq k (length l)) l)).2 =
    Ok {| reshape_info :=
            reshape_info st
            ++ map (λ idx, length (gradient_fn t idx).1) (seq k (length l));
          gradient_tapes :=
            gradient_tapes st
            ++ flat_map (λ idx, (gradient_fn t idx).1) (seq k (length l));
          processing_fns :=
            pf ++ [cur ++ map (λ idx, (gradient_fn t idx).2)
                              (seq k (length l))] |}.
Proof.
  induction l as [|x l IH]; intros k st pf cur Hpf; simpl.
  - rewrite !app_nil_r, <-Hpf. by destruct st.
  - unfold generate_param at 1. simpl.
    destruct (gradient_fn t k) as [g_tapes fn] eqn:Hg. simpl.
    match goal with
    | |- (let '(log', r) := ?m in _).2 = _ => destruct m as [log' r] eqn:Hm
    end.
    simpl. apply (f_equal snd) in Hm. simpl in Hm. rewrite <-Hm.
    rewrite (IH (S k) _ pf (cur ++ [fn])).
    + simpl. rewrite <-!app_assoc. done.
    + simpl. rewrite Hpf. apply append_last_snoc.
Qed.

Lemma generate_tapes_closed (ts : list (QuantumTape A)) :
  ∀ st : generated A,
    (tfoldl (generate_tape (CacheEntry:=CacheEntry) gradient_fn) st ts).2 =
    Ok {| reshape_info :=
            reshape_info st ++ reshape_info (generated_lists gradient_fn ts);
          gradient_tapes :=
            gradient_tapes st
            ++ gradient_tapes (generated_lists gradient_fn ts);
          processing_fns :=
            processing_fns st
            ++ processing_fns (generated_lists gradient_fn ts) |}.
Proof.
  induction ts as [|t ts IH]; intros st; simpl.
  - rewrite !app_nil_r. by destruct st.
  - unfold generate_tape at 1.
    pose proof (generate_params_closed t (elements (trainable_params t)) 0
      {| reshape_info := reshape_info st; gradient_tapes := gradient_tapes st;
         processing_fns := processing_fns st ++ [[]] |}
      (processing_fns st) [] eq_refl) as Hin.
    fold (enumerate (elements (trainable_params t))) in Hin.
    destruct (tfoldl (generate_param gradient_fn t) _ _) as [log [st'|e]];
      simpl in Hin; [|done].
    injection Hin as ->. simpl.
    match goal with
    | |- (let '(log', r) := ?m in _).2 = _ => destruct m as [log' r] eqn:Hm
    end.
    simpl. apply (f_equal snd) in Hm. simpl in Hm. rewrite <-Hm, IH. simpl.
    unfold positions, size, set_size. simpl.
    by rewrite <-!app_assoc.
Qed.

Lemma generate_closed (tapes : list (QuantumTape A)) :
  (generate (CacheEntry:=CacheEntry) tapes gradient_fn).2 =
  Ok (generated_lists gradient_fn tapes).
Proof.
  unfold generate. rewrite generate_tapes_closed. reflexivity.
Qed.

(** X10. The first loop of [grad_fn] never raises, and the lists it builds
    are in the order of generation: tape by tape in input order and, within
    a tape, position by position, [reshape_info] holds the number of
    shifted tapes of each call of [gradient_fn], [gradient_tapes] the
    shifted tapes themselves, concatenated, and [processing_fns] one list
    per tape (empty for a tape without trainable parameter) with the
    post-processing function of each call. *)
Theorem generate_spec (tapes : list (QuantumTape A)) :
  (generate (CacheEntry:=CacheEntry) tapes gradient_fn).2 =
  Ok {| reshape_info :=
          flat_map (λ t, map (λ idx, length (gradient_fn t idx).1)
                             (positions t)) tapes;
        gradient_tapes :=
          flat_map (λ t, flat_map (λ idx, (gradient_fn t idx).1)
                                  (positions t)) tapes;
        processing_fns :=
          map (λ t, map (λ idx, (gradient_fn t idx).2) (positions t))
              tapes |}.
Proof. apply generate_closed. Qed.

Lemma sum_list_flat_map_length {T U : Type} (f : T → list U) (l : list T) :
  length (flat_map f l) = sum_list (map (λ x, length (f x)) l).
Proof.
  induction l as [|x l IH]; simpl; [done|]. by rewrite length_app, IH.
Qed.

(** X11. The lists of the first loop fit together: [processing_fns] has one
    entry per tape, whose length is the number of trainable parameters of
    that tape; [reshape_info] has one entry per (tape, trainable parameter)
    pair; and the entries of [reshape_info] add up to the number of
    [gradient_tapes]. *)
Theorem generate_bookkeeping (tapes : list (QuantumTape A)) :
  ∃ g, (generate (CacheEntry:=CacheEntry) tapes gradient_fn).2 = Ok g ∧
       length (processing_fns g) = length tapes ∧
       map length (processing_fns g) = trainable_counts tapes ∧
       length (reshape_info g) = sum_list (trainable_counts tapes) ∧
       sum_list (reshape_info g) = length (gradient_tapes g).
Proof.
  exists (generated_lists gradient_fn tapes).
  split; [apply generate_closed|]. unfold generated_lists, trainable_counts.
  simpl. split; [by rewrite length_map|]. split; [|split].
  - rewrite <-list_fmap_compose. apply list_fmap_ext. intros _ t _. simpl.
    unfold positions. by rewrite length_map, length_seq.
  - rewrite sum_list_flat_map_length. f_equal. apply list_fmap_ext.
    intros _ t _. unfold positions. by rewrite length_map, length_seq.
  - induction tapes as [|t ts IH]; simpl; [done|].
    rewrite sum_list_with_app, length_app, IH. f_equal.
    induction (positions t) as [|i l IHl]; simpl; [done|].
    by rewrite length_app, IHl.
Qed.

End GenerateProperties.

Section SliceProperties.

Context {A CacheEntry : Type}.
Context (np_reshape : pyval A → list Z → result (pyval A)).
Context (np_stack : list (pyval A) → result (pyval A)).
Context (np_transpose : pyval A → result (pyval A)).
Context (np_tensordot : pyval A → pyval A → result (pyval A)).
Context (traced_batch_execute :
  list (QuantumTape A) → list CacheEntry → nat → result (list (pyval A))).
Context (tapes : list (QuantumTape A)).
Context (gradient_fn : GradientFn (A:=A)).
Context (cache : list CacheEntry).
Context (_n : nat).

#[local] Abbreviation event := (event A CacheEntry).
#[local] Abbreviation run_grad_fn :=
  (grad_fn np_reshape np_stack np_transpose np_tensordot traced_batch_execute
           tapes gradient_fn cache _n).
#[local] Abbreviation run_grad_fn_vjp :=
  (grad_fn_vjp np_reshape np_stack np_transpose np_tensordot
               traced_batch_execute tapes gradient_fn cache _n).
#[local] Abbreviation run_row :=
  (row (CacheEntry:=CacheEntry) np_reshape np_stack np_transpose np_tensordot
       tapes).

Lemma postprocess_slices_app (l1 l2 : list event) :
  postprocess_slices (l1 ++ l2) = postprocess_slices l1 ++ postprocess_slices l2.
Proof. apply omap_app. Qed.

Lemma postprocess_slices_calls (fns : list (Postprocess (A:=A)))
    (slices : list (list (pyval A))) :
  postprocess_slices (CacheEntry:=CacheEntry)
    (zip_with PostprocessCall fns slices) = take (length fns) slices.
Proof.
  revert slices. induction fns as [|fn fns IH]; intros [|s slices]; simpl;
    try done.
  unfold postprocess_slices in *. simpl. by rewrite IH.
Qed.

Lemma take_consecutive_slices {T : Type} k (lens : list nat) (xs : list T) :
  take k (consecutive_slices lens xs) = consecutive_slices (take k lens) xs.
Proof.
  revert k xs. induction lens as [|n lens IH]; intros [|k] xs; simpl; try done.
  by rewrite IH.
Qed.

Lemma consecutive_slices_app {T : Type} (lens1 lens2 : list nat) (xs : list T) :
  consecutive_slices (lens1 ++ lens2) xs =
  consecutive_slices lens1 xs
  ++ consecutive_slices lens2 (drop (sum_list lens1) xs).
Proof.
  revert xs. induction lens1 as [|n lens1 IH]; intros xs; simpl; [done|].
  by rewrite IH, drop_drop.
Qed.

Lemma concat_consecutive_slices {T : Type} (lens : list nat) (xs : list T) :
  concat (consecutive_slices lens xs) = take (sum_list lens) xs.
Proof.
  revert xs. induction lens as [|n lens IH]; intros xs; simpl; [done|].
  by rewrite IH, take_take_drop.
Qed.

Lemma tbind_fst {T U : Type} (m : traced (A:=A) (CacheEntry:=CacheEntry) T)
    (f : T → traced U) :
  (tbind m f).1 = m.1 ++ match m.2 with
                         | Ok x => (f x).1
                         | Raise _ => []
                         end.
Proof.
  destruct m as [log [x|e]]; simpl; [|by rewrite app_nil_r]. by destruct (f x).
Qed.

Lemma tbind_snd {T U : Type} (m : traced (A:=A) (CacheEntry:=CacheEntry) T)
    (f : T → traced U) :
  (tbind m f).2 = match m.2 with
                  | Ok x => (f x).2
                  | Raise e => Raise e
                  end.
Proof. destruct m as [log [x|e]]; simpl; [|done]. by destruct (f x). Qed.

(** The calls of one row: the slices are cut off [results] from [start]
    on, with the lengths [row_counts]; when the row completes, [start] has
    advanced by their sum. *)
Lemma row_slices g results vjp start t d :
  let r := run_row g results (vjp, start) (t, d) in
  postprocess_slices r.1 =
    consecutive_slices (row_counts tapes g t) (drop start results) ∧
  ∀ vjp' start', r.2 = Ok (vjp', start') →
    start' = start + sum_list (row_counts tapes g t).
Proof.
  cbv zeta. unfold row, row_counts.
  rewrite tbind_fst, tbind_snd. cbn [lift fst snd app].
  destruct (tapes !! t) as [tape_t|]; cbn [of_option]; [|done].
  destruct (Nat.eqb _ 0).
  { split; [done|]. intros ?? [= _ <-]. simpl. lia. }
  rewrite tbind_fst, tbind_snd. cbn [lift fst snd app].
  destruct (processing_fns g !! t) as [fns|]; cbn [of_option]; [|done].
  rewrite tbind_fst, tbind_snd.
  rewrite columns_consume_leading_counts. cbn [fst snd].
  rewrite postprocess_slices_app, postprocess_slices_calls.
  rewrite take_consecutive_slices.
  repeat (rewrite tbind_fst, tbind_snd; cbn [lift fst snd app];
          match goal with
          | |- context [match ?r with Ok _ => _ | Raise _ => _ end] =>
              destruct r
          end;
          [|split; [by rewrite app_nil_r|done]]).
  split; [by rewrite app_nil_r|]. by intros ?? [= _ <-].
Qed.

Lemma rows_slices g results xs :
  ∀ vjp start,
    let r := tfoldl (run_row g results) (vjp, start) xs in
    (∃ lens, postprocess_slices r.1 =
             consecutive_slices lens (drop start results)) ∧
    ∀ vjp' start', r.2 = Ok (vjp', start') →
      postprocess_slices r.1 =
        consecutive_slices (flat_map (row_counts tapes g) xs.*1)
                           (drop start results) ∧
      start' = start + sum_list (flat_map (row_counts tapes g) xs.*1).
Proof.
  induction xs as [|[t d] xs IH]; intros vjp start; cbv zeta; cbn [tfoldl].
  { split; [by exists []|]. intros ?? [= _ <-]. simpl. split; [done|lia]. }
  rewrite tbind_fst, tbind_snd.
  destruct (row_slices g results vjp start t d) as [Hlog Hok].
  destruct (run_row g results (vjp, start) (t, d))
    as [log1 [[vjp1 start1]|e]]; cbn [fst snd] in *.
  - specialize (Hok _ _ eq_refl). subst start1.
    destruct (IH vjp1 (start + sum_list (row_counts tapes g t)))
      as [[lens2 Hl2] Hok2].
    split.
    + exists (row_counts tapes g t ++ lens2).
      by rewrite postprocess_slices_app, Hlog, Hl2, consecutive_slices_app,
        drop_drop.
    + intros vjp' start' Hr. destruct (Hok2 _ _ Hr) as [Hs ->].
      rewrite postprocess_slices_app, Hlog, Hs. cbn [fmap list_fmap flat_map fst].
      rewrite consecutive_slices_app, drop_drop, sum_list_with_app.
      split; [done|lia].
  - split; [|done]. exists (row_counts tapes g t). by rewrite app_nil_r.
Qed.

Lemma postprocess_slices_generated (ts : list (QuantumTape A)) :
  postprocess_slices (CacheEntry:=CacheEntry)
    (flat_map (λ t, map (GradientFnCall t)
                        (seq 0 (size (trainable_params t)))) ts) = [].
Proof.
  unfold postprocess_slices.
  induction ts as [|t ts IH]; simpl; [done|].
  rewrite omap_app, IH, app_nil_r.
  induction (seq 0 _) as [|i l IHl]; simpl; [done|]. by rewrite <-IHl.
Qed.

(** [grad_fn] up to its last line, taken apart: the calls of the first
    loop, the recursive call, and the rows. *)
Lemma grad_fn_vjp_decompose dy :
  let g := generated_lists gradient_fn tapes in
  ∃ glog,
    postprocess_slices (CacheEntry:=CacheEntry) glog = [] ∧
    run_grad_fn_vjp dy =
    match traced_batch_execute (gradient_tapes g) cache (_n + 1) with
    | Raise e =>
        (glog ++ [BatchExecuteCall (gradient_tapes g) cache (_n + 1)], Raise e)
    | Ok results =>
        let r := tfoldl (run_row g results) ([], 0)
                        (zip (seq 0 (length tapes)) dy) in
        (glog ++ BatchExecuteCall (gradient_tapes g) cache (_n + 1) :: r.1,
         match r.2 with
         | Ok (vjp, _) => Ok vjp
         | Raise e => Raise e
         end)
    end.
Proof.
  cbv zeta. unfold grad_fn_vjp.
  pose proof (generate_closed (CacheEntry:=CacheEntry) gradient_fn tapes)
    as Hspec.
  unfold generate in *.
  destruct (generate_tapes_spec (CacheEntry:=CacheEntry) gradient_fn tapes
              {| reshape_info := []; gradient_tapes := [];
                 processing_fns := [] |}) as [g Hg].
  rewrite Hg in Hspec |- *. injection Hspec as ->. clear Hg.
  eexists. split; [apply postprocess_slices_generated|].
  cbn [tbind emit lift].
  destruct (traced_batch_execute _ _ _) as [results|e]; [|done].
  destruct (tfoldl (run_row _ _) _ _) as [log [[vjp start]|e]]; simpl;
    by rewrite ?app_nil_r.
Qed.

(** X12. An exception of the recursive [batch_execute] is the exception of
    [grad_fn]: it is raised after every call of [gradient_fn] has been made,
    and no post-processing function is called. *)
Theorem grad_fn_executor_raises dy e :
  traced_batch_execute
    (gradient_tapes (generated_lists gradient_fn tapes)) cache (_n + 1)
  = Raise e →
  (run_grad_fn dy).2 = Raise e ∧
  postprocess_slices (run_grad_fn dy).1 = [] ∧
  gradient_calls (run_grad_fn dy).1 = calls_by_position tapes.
Proof.
  intros He. unfold grad_fn.
  destruct (grad_fn_vjp_decompose dy) as (glog & Hglog & Hrun).
  rewrite He in Hrun. rewrite tbind_fst, tbind_snd, Hrun. cbn [fst snd].
  split; [done|]. split.
  - by rewrite app_nil_r, postprocess_slices_app, Hglog.
  - rewrite app_nil_r.
    pose proof (grad_fn_log np_reshape np_stack np_transpose np_tensordot
                  traced_batch_execute tapes gradient_fn cache _n dy) as Hlog.
    destruct (grad_fn_vjp_log np_reshape np_stack np_transpose np_tensordot
                traced_batch_execute tapes gradient_fn cache _n dy)
      as (g & rest & Hl & Hrest).
    rewrite Hrun in Hl. cbn [fst] in Hl. rewrite Hl.
    rewrite gradient_calls_app.
    change (gradient_calls (BatchExecuteCall _ _ _ :: rest))
      with (gradient_calls rest).
    rewrite (gradient_calls_postprocess rest Hrest), app_nil_r.
    apply gradient_calls_generated.
Qed.

(** X13. The slices that [grad_fn] hands to the post-processing functions
    are consecutive and do not overlap, whatever the batch and however far
    the backward pass gets: put end to end, they are an initial segment of
    the results of the recursive [batch_execute]. *)
Theorem grad_fn_slices_consecutive dy results :
  traced_batch_execute
    (gradient_tapes (generated_lists gradient_fn tapes)) cache (_n + 1)
  = Ok results →
  ∃ lens, postprocess_slices (run_grad_fn dy).1 =
            consecutive_slices lens results ∧
          concat (postprocess_slices (run_grad_fn dy).1) =
            take (sum_list lens) results.
Proof.
  intros Hres.
  rewrite (grad_fn_log np_reshape np_stack np_transpose np_tensordot
             traced_batch_execute tapes gradient_fn cache _n dy).
  destruct (grad_fn_vjp_decompose dy) as (glog & Hglog & Hrun).
  rewrite Hres in Hrun. rewrite Hrun. cbn [fst].
  rewrite postprocess_slices_app, Hglog.
  change (postprocess_slices (BatchExecuteCall ?ts ?c ?n :: ?l))
    with (postprocess_slices (CacheEntry:=CacheEntry) l).
  destruct (rows_slices (generated_lists gradient_fn tapes) results
              (zip (seq 0 (length tapes)) dy) [] 0) as [[lens Hlens] _].
  exists lens. cbn [app]. rewrite Hlens. cbn [drop].
  split; [done|]. apply concat_consecutive_slices.
Qed.

Section Uniform.

(** Every call of the gradient transform generates [c] shifted tapes. *)
Context (c : nat).
Context (Huniform : ∀ t idx, length (gradient_fn t idx).1 = c).

Lemma reshape_info_uniform (ts : list (QuantumTape A)) :
  reshape_info (generated_lists gradient_fn ts) =
  replicate (sum_list (trainable_counts ts)) c.
Proof using Huniform.
  unfold generated_lists, trainable_counts. simpl.
  induction ts as [|t ts IH]; simpl; [done|].
  rewrite IH, replicate_add. f_equal.
  unfold positions. generalize 0.
  induction (size (trainable_params t)) as [|k IHk]; intros j; simpl; [done|].
  by rewrite Huniform, IHk.
Qed.

Lemma row_counts_uniform t tape_t :
  tapes !! t = Some tape_t →
  row_counts tapes (generated_lists gradient_fn tapes) t =
  replicate (size (trainable_params tape_t)) c.
Proof using Huniform.
  intros Ht. unfold row_counts. rewrite Ht.
  destruct (Nat.eqb_spec (size (trainable_params tape_t)) 0) as [->|_];
    [done|].
  rewrite reshape_info_uniform. unfold generated_lists. simpl.
  rewrite list_lookup_fmap, Ht. simpl.
  unfold positions. rewrite length_map, length_seq, take_replicate.
  f_equal. apply Nat.min_l.
  apply (sum_list_with_in _ id). unfold trainable_counts.
  apply list_elem_of_fmap. exists tape_t. split; [done|].
  by eapply list_elem_of_lookup_2.
Qed.

Lemma rows_counts_uniform (ts : list (QuantumTape A)) :
  ∀ j, drop j tapes = ts →
       flat_map (row_counts tapes (generated_lists gradient_fn tapes))
                (seq j (length ts)) =
       replicate (sum_list (trainable_counts ts)) c.
Proof using Huniform.
  induction ts as [|t ts IH]; intros j Hdrop; simpl; [done|].
  assert (tapes !! j = Some t) as Ht.
  { rewrite <-(Nat.add_0_r j), <-lookup_drop, Hdrop. done. }
  rewrite (row_counts_uniform j t Ht), replicate_add. f_equal.
  apply IH. rewrite (drop_S _ _ _ Ht) in Hdrop. by injection Hdrop.
Qed.

(** X14. With a gradient transform that generates the same number of
    shifted tapes for every parameter (as the two-term parameter-shift rule
    does), and an upstream gradient with at least one row per tape, a
    backward pass that completes hands every post-processing function the
    results of its own shifted tapes: the slices are the results cut by
    [reshape_info], in generation order. *)
Theorem grad_fn_slices_uniform dy results log vjp :
  traced_batch_execute
    (gradient_tapes (generated_lists gradient_fn tapes)) cache (_n + 1)
  = Ok results →
  run_grad_fn_vjp dy = (log, Ok vjp) →
  length tapes ≤ length dy →
  postprocess_slices log =
  consecutive_slices (reshape_info (generated_lists gradient_fn tapes)) results.
Proof using Huniform.
  intros Hres Hrun Hlen.
  destruct (grad_fn_vjp_decompose dy) as (glog & Hglog & Hdec).
  rewrite Hres, Hrun in Hdec. cbv zeta in Hdec.
  injection Hdec as -> Hok.
  rewrite postprocess_slices_app, Hglog.
  change (postprocess_slices (BatchExecuteCall ?ts ?c0 ?n :: ?l))
    with (postprocess_slices (CacheEntry:=CacheEntry) l).
  destruct (rows_slices (generated_lists gradient_fn tapes) results
              (zip (seq 0 (length tapes)) dy) [] 0) as [_ Hrows].
  destruct (tfoldl _ _ _).2 as [[vjp' start']|e] eqn:Hr; [|done].
  destruct (Hrows _ _ eq_refl) as [-> _]. cbn [app drop].
  rewrite fst_zip by (rewrite length_seq; lia).
  rewrite (rows_counts_uniform tapes 0 eq_refl).
  by rewrite reshape_info_uniform.
Qed.

End Uniform.

(** X15. The last line of [grad_fn] at a positive nesting depth returns
    exactly when every entry of [vjp] is an [ArrayBox], each entry then
    with at most [_n] layers stripped, and raises [AttributeError]
    otherwise; at depth 0 it returns [vjp] as it is. *)
Theorem grad_fn_return_spec (depth : nat) (vjp : list (pyval A)) :
  grad_fn_return 0 vjp = Ok vjp ∧
  grad_fn_return (S depth) vjp =
    if forallb is_ArrayBox vjp
    then Ok (map (λ v, strip_layers (min (S depth) (box_depth v)) v) vjp)
    else Raise AttributeError.
Proof.
  unfold grad_fn_return. split.
  - induction vjp as [|v vjp IH]; simpl; [done|]. rewrite IH.
    by destruct v.
  - induction vjp as [|v vjp IH]; [done|].
    cbn [rmapM forallb map]. rewrite IH.
    destruct (is_ArrayBox v) eqn:Hv.
    + apply is_ArrayBox_true in Hv as [v' ->].
      rewrite _unwrap_arraybox_bounded by lia. rewrite Nat.sub_0_r.
      cbn [rbind andb]. by destruct (forallb is_ArrayBox vjp).
    + by destruct v.
Qed.

(** X16. When [grad_fn] returns, the list has one entry per pair of
    [zip(range(len(tapes)), dy)]: as many as there are tapes or rows of
    [dy], whichever is fewer. *)
Theorem grad_fn_length dy log out :
  grad_fn np_reshape np_stack np_transpose np_tensordot traced_batch_execute
          tapes gradient_fn cache _n dy = (log, Ok out) →
  length out = min (length tapes) (length dy).
Proof.
  unfold grad_fn.
  intros (log1 & vjp & log2 & Hvjp & Hret & _)%tbind_inv_Ok.
  injection Hret as _ Hret.
  rewrite (grad_fn_return_length _ _ _ Hret).
  by eapply grad_fn_vjp_length.
Qed.

End SliceProperties.

Lemma grad_fn_executor_raises_witness :
  (grad_fn Examples.np_reshape Examples.np_stack Examples.np_transpose
     Examples.np_tensordot Examples.failing_results
     [Examples.tape_one; Examples.tape_two] Examples.two_or_four [] 1
     Examples.dy2).2 = Raise (DeviceError 3) ∧
  postprocess_slices
    (grad_fn Examples.np_reshape Examples.np_stack Examples.np_transpose
       Examples.np_tensordot Examples.failing_results
       [Examples.tape_one; Examples.tape_two] Examples.two_or_four [] 1
       Examples.dy2).1 = [] ∧
  gradient_calls
    (grad_fn Examples.np_reshape Examples.np_stack Examples.np_transpose
       Examples.np_tensordot Examples.failing_results
       [Examples.tape_one; Examples.tape_two] Examples.two_or_four [] 1
       Examples.dy2).1 =
  calls_by_position [Examples.tape_one; Examples.tape_two].
Proof.
  apply grad_fn_executor_raises. reflexivity.
Defined.

Lemma grad_fn_slices_consecutive_witness :
  ∃ lens,
    postprocess_slices
      (Examples.grad_fn_example [Examples.tape_one; Examples.tape_two] 1
                                Examples.dy2).1 =
    consecutive_slices lens
      (map (λ i, ArrayBox (NDArray [Z.of_nat i])) (seq 0 6)) ∧
    concat (postprocess_slices
      (Examples.grad_fn_example [Examples.tape_one; Examples.tape_two] 1
                                Examples.dy2).1) =
    take (sum_list lens) (map (λ i, ArrayBox (NDArray [Z.of_nat i])) (seq 0 6)).
Proof.
  apply (grad_fn_slices_consecutive Examples.np_reshape Examples.np_stack
           Examples.np_transpose Examples.np_tensordot
           Examples.numbered_results
           [Examples.tape_one; Examples.tape_two] Examples.two_or_four [] 1).
  vm_compute. reflexivity.
Defined.

Lemma grad_fn_slices_uniform_witness :
  postprocess_slices
    (grad_fn_vjp Examples.np_reshape Examples.np_stack Examples.np_transpose
       Examples.np_tensordot Examples.numbered_results
       [Examples.tape_one; Examples.tape_two] Examples.always_two [] 1
       Examples.dy2).1 =
  consecutive_slices
    (reshape_info (generated_lists Examples.always_two
                     [Examples.tape_one; Examples.tape_two]))
    (map (λ i, ArrayBox (NDArray [Z.of_nat i])) (seq 0 4)).
Proof.
  refine (grad_fn_slices_uniform Examples.np_reshape Examples.np_stack
            Examples.np_transpose Examples.np_tensordot
            Examples.numbered_results
            [Examples.tape_one; Examples.tape_two] Examples.always_two [] 1 2
            _ Examples.dy2 _ _
            [ArrayBox (NDArray [1%Z]); ArrayBox (NDArray [5%Z])] _ _ _).
  - intros t idx. reflexivity.
  - vm_compute. reflexivity.
  - vm_compute. reflexivity.
  - simpl. lia.
Defined.

Lemma grad_fn_length_witness :
  length [NDArray [1%Z]; NDArray [5%Z] : pyval Examples.arr] =
  min (length [Examples.tape_one; Examples.tape_two]) (length Examples.dy2).
Proof.
  eapply (grad_fn_length Examples.np_reshape Examples.np_stack
            Examples.np_transpose Examples.np_tensordot
            Examples.numbered_results
            [Examples.tape_one; Examples.tape_two] Examples.two_or_four [] 1
            Examples.dy2).
  vm_compute. reflexivity.
Defined.

(** ** Upstream gradients shorter than the batch *)

Section ShortGradient.

Context {A CacheEntry : Type}.
Context (np_reshape : pyval A → list Z → result (pyval A)).
Context (np_stack : list (pyval A) → result (pyval A)).
Context (np_transpose : pyval A → result (pyval A)).
Context (np_tensordot : pyval A → pyval A → result (pyval A)).
Context (traced_batch_execute :
  list (QuantumTape A) → list CacheEntry → nat → result (list (pyval A))).
Context (tapes : list (QuantumTape A)).
Context (gradient_fn : GradientFn (A:=A)).
Context (cache : list CacheEntry).
Context (_n : nat).

#[local] Abbreviation run_grad_fn :=
  (grad_fn np_reshape np_stack np_transpose np_tensordot traced_batch_execute
           tapes gradient_fn cache _n).
#[local] Abbreviation run_rows :=
  (λ ts, tfoldl (row (CacheEntry:=CacheEntry) np_reshape np_stack np_transpose
                     np_tensordot ts)).






End ShortGradient.


